(** * Tabelin: the rendering-and-state engine of [src/tablein.js]

    A shallow embedding of the table widget's state engine: pagination,
    client-side sort and search, the rules engine's condition evaluator,
    the collaboration handler and the per-cell version history.

    JavaScript objects that the code mutates in place (row objects and the
    version arrays kept in [cellVersions]) live in explicit stores and are
    handled through references, so that aliasing is visible.  Host
    primitives whose behaviour the source does not fix ([parseFloat] and
    [Number] on strings, [Date] parsing, [localeCompare], [RegExp]) are
    fields of a [Host] class. *)

From Stdlib Require Import Ascii.
From stdpp Require Import gmap strings list pretty sorting.

Open Scope Z_scope.

(** ** JavaScript numbers

    Integer-valued doubles together with the three special values.
    Fractions and the sign of zero are not represented. *)

Inductive number : Type :=
| NaN
| NegInf
| Fin (z : Z)
| PosInf.

Global Instance number_eq_dec : EqDecision number.
Proof. solve_decision. Defined.

Definition isNaN (n : number) : bool :=
  match n with NaN => true | _ => false end.

(** [x - y] *)
Definition num_sub (x y : number) : number :=
  match x, y with
  | NaN, _ | _, NaN => NaN
  | Fin a, Fin b => Fin (a - b)
  | PosInf, PosInf | NegInf, NegInf => NaN
  | PosInf, _ | _, NegInf => PosInf
  | NegInf, _ | _, PosInf => NegInf
  end.

(** The abstract relational comparison [x < y]: [None] is the "undefined"
    outcome that a [NaN] operand produces. *)
Definition num_less (x y : number) : option bool :=
  match x, y with
  | NaN, _ | _, NaN => None
  | Fin a, Fin b => Some (a <? b)
  | NegInf, NegInf | PosInf, PosInf => Some false
  | NegInf, _ | _, PosInf => Some true
  | PosInf, _ | _, NegInf => Some false
  end.

(** [x < y], [x > y], [x <= y], [x >= y] as the language defines them from
    the relational comparison. *)
Definition num_lt (x y : number) : bool :=
  match num_less x y with Some r => r | None => false end.
Definition num_gt (x y : number) : bool :=
  match num_less y x with Some r => r | None => false end.
Definition num_le (x y : number) : bool :=
  match num_less y x with Some r => negb r | None => false end.
Definition num_ge (x y : number) : bool :=
  match num_less x y with Some r => negb r | None => false end.

(** [x === y] on numbers. *)
Definition num_eq (x y : number) : bool :=
  match x, y with
  | NaN, _ | _, NaN => false
  | _, _ => bool_decide (x = y)
  end.

(** How [Array.prototype.sort] reads a comparator's result [v]: negative,
    positive, or a tie (zero and [NaN] alike). *)
Definition sortSign (v : number) : Z :=
  match v with
  | NaN => 0
  | NegInf => -1
  | Fin z => Z.sgn z
  | PosInf => 1
  end.

(** ** JavaScript primitive values *)

Inductive value : Type :=
| VUndefined
| VNull
| VBool (b : bool)
| VNum (n : number)
| VStr (s : string).

Global Instance value_eq_dec : EqDecision value.
Proof. solve_decision. Defined.

Global Instance value_inhabited : Inhabited value := populate VUndefined.

(** [String(v)] *)
Definition num_toString (n : number) : string :=
  match n with
  | NaN => "NaN"
  | NegInf => "-Infinity"
  | Fin z => pretty z
  | PosInf => "Infinity"
  end.

Definition toString (v : value) : string :=
  match v with
  | VUndefined => "undefined"
  | VNull => "null"
  | VBool true => "true"
  | VBool false => "false"
  | VNum n => num_toString n
  | VStr s => s
  end.

(** Truthiness, as [!v], [v || d] and [if (v)] read it. *)
Definition truthy (v : value) : bool :=
  match v with
  | VUndefined | VNull => false
  | VBool b => b
  | VNum NaN => false
  | VNum (Fin z) => negb (z =? 0)
  | VNum _ => true
  | VStr s => negb (String.eqb s "")
  end.

(** [a === b] *)
Definition strict_eq (a b : value) : bool :=
  match a, b with
  | VNum x, VNum y => num_eq x y
  | _, _ => bool_decide (a = b)
  end.

(** [SameValueZero], the equality of [Array.prototype.includes]. *)
Definition sameValueZero (a b : value) : bool := bool_decide (a = b).

(** ** Strings: the ASCII fragment of the string methods the code calls *)

Definition is_upper (c : ascii) : bool :=
  let n := N_of_ascii c in ((65 <=? n) && (n <=? 90))%N.

Definition lower_ascii (c : ascii) : ascii :=
  if is_upper c then ascii_of_N (N_of_ascii c + 32) else c.

(** [s.toLowerCase()] *)
Fixpoint toLowerCase (s : string) : string :=
  match s with
  | EmptyString => EmptyString
  | String c s' => String (lower_ascii c) (toLowerCase s')
  end.

Definition is_white (c : ascii) : bool :=
  let n := N_of_ascii c in ((n =? 32) || ((9 <=? n) && (n <=? 13)))%N.

Fixpoint trimStart (s : string) : string :=
  match s with
  | EmptyString => EmptyString
  | String c s' => if is_white c then trimStart s' else s
  end.

Fixpoint trimEnd (s : string) : string :=
  match s with
  | EmptyString => EmptyString
  | String c s' =>
      match trimEnd s' with
      | EmptyString => if is_white c then EmptyString else String c EmptyString
      | t => String c t
      end
  end.

(** [s.trim()] *)
Definition trim (s : string) : string := trimEnd (trimStart s).

(** [s.startsWith(p)] *)
Definition startsWith (s p : string) : bool := String.prefix p s.

(** [s.includes(sub)] *)
Fixpoint includes (s sub : string) : bool :=
  String.prefix sub s ||
  match s with
  | EmptyString => false
  | String _ s' => includes s' sub
  end.

(** [s.endsWith(p)] *)
Definition endsWith (s p : string) : bool :=
  String.prefix (String.rev p) (String.rev s).

(** ** Host primitives

    What the JavaScript engine, not the library, decides on strings. *)

Class Host : Type := {
  (** [parseFloat(s)] *)
  parseFloatStr : string → number;
  (** [Number(s)] *)
  numberStr : string → number;
  (** the time value of [new Date(s)], [NaN] for an invalid date *)
  dateParse : string → number;
  (** [a.localeCompare(b)] *)
  localeCompare : string → string → Z;
  (** [new RegExp(p).test(s)]; [None] when the pattern does not compile *)
  regexTest : string → string → option bool;
  (** [l.sort(cmp)], as the array it leaves in place *)
  arraySort : ∀ A : Type, (A → A → number) → list A → list A;
}.

(** The sort that ECMAScript 2019 prescribes: the result is ordered by the
    comparator and elements that tie keep their relative order.  Insertion
    from the right end computes it. *)
Fixpoint insertStable {A : Type} (cmp : A → A → number) (x : A) (l : list A)
  : list A :=
  match l with
  | [] => [x]
  | y :: l' =>
      if 0 <? sortSign (cmp x y) then y :: insertStable cmp x l' else x :: l
  end.

Definition stableSort (A : Type) (cmp : A → A → number) (l : list A) : list A :=
  foldr (insertStable cmp) [] l.

(** A sort as engines before ECMAScript 2019 were free to provide: the
    result is ordered by the comparator, but an element is carried past the
    elements it ties with. *)
Fixpoint insertPastTies {A : Type} (cmp : A → A → number) (x : A) (l : list A)
  : list A :=
  match l with
  | [] => [x]
  | y :: l' =>
      if 0 <=? sortSign (cmp x y) then y :: insertPastTies cmp x l' else x :: l
  end.

Definition legacySort (A : Type) (cmp : A → A → number) (l : list A) : list A :=
  foldr (insertPastTies cmp) [] l.

(** A host for tables whose cells hold numbers only: it is consulted on
    strings alone, finds no numeral and no date in any of them and orders
    them as equal.  It serves to run the examples. *)
Definition numericHost : Host := {|
  parseFloatStr := λ _, NaN;
  numberStr := λ _, NaN;
  dateParse := λ _, NaN;
  localeCompare := λ _ _, 0;
  regexTest := λ _ _, None;
  arraySort := stableSort;
|}.


(** A comparator is consistent on [l] when integer ranks order its
    elements the way it does. *)
Definition ranked {A : Type} (cmp : A → A → number) (key : A → Z) (l : list A)
  : Prop :=
  ∀ a b, a ∈ l → b ∈ l → sortSign (cmp a b) = Z.sgn (key a - key b).

(** The ECMAScript 2019 contract of [Array.prototype.sort]: with a
    consistent comparator the host returns the stable sort. *)
Definition stableHost (H : Host) : Prop :=
  ∀ (A : Type) (cmp : A → A → number) (key : A → Z) (l : list A),
    ranked cmp key l → arraySort A cmp l = stableSort A cmp l.

(** [parseFloat(v)]: the argument is first turned into a string; a number
    prints to a numeral that reads back as itself. *)
Definition parseFloat `{Host} (v : value) : number :=
  match v with
  | VNum n => n
  | VStr s => parseFloatStr s
  | VUndefined | VNull | VBool _ => NaN
  end.

(** [Number(v)] *)
Definition toNumber `{Host} (v : value) : number :=
  match v with
  | VUndefined => NaN
  | VNull => Fin 0
  | VBool true => Fin 1
  | VBool false => Fin 0
  | VNum n => n
  | VStr s => numberStr s
  end.

(** The range of valid time values, in milliseconds around the epoch. *)
Definition timeClip (n : number) : number :=
  match n with
  | Fin z => if Z.abs z <=? 8640000000000000 then Fin z else NaN
  | _ => NaN
  end.

(** The time value of [new Date(v)]. *)
Definition dateOf `{Host} (v : value) : number :=
  match v with
  | VStr s => dateParse s
  | _ => timeClip (toNumber v)
  end.

(** [a == b] on primitives. *)
Definition loose_eq `{Host} (a b : value) : bool :=
  match a, b with
  | (VUndefined | VNull), (VUndefined | VNull) => true
  | (VUndefined | VNull), _ | _, (VUndefined | VNull) => false
  | VStr s, VStr t => bool_decide (s = t)
  | _, _ => num_eq (toNumber a) (toNumber b)
  end.

(** ** Rows, columns, users *)

(** A reference into one of the object stores. *)
Abbreviation loc := nat.

(** A row object: an open mapping from field names to scalars. *)
Abbreviation row := (gmap string value).

(** [r[f]] *)
Definition getField (r : row) (f : string) : value := default VUndefined (r !! f).

Record column : Type := {
  field : string;
  title : string;
  (** the optional custom renderer [render(value, row)] *)
  render : option (value → row → string);
}.

Record user : Type := {
  user_id : value;
  user_name : value;
  user_color : value;
}.

(** A Cell Version Entry [{value, timestamp, user}]. *)
Record version : Type := {
  v_value : value;
  v_timestamp : Z;
  v_user : user;
}.

Global Instance user_eq_dec : EqDecision user.
Proof. solve_decision. Defined.

Global Instance version_eq_dec : EqDecision version.
Proof. solve_decision. Defined.

Inductive direction : Type := Asc | Desc.

Global Instance direction_eq_dec : EqDecision direction.
Proof. solve_decision. Defined.

(** ** The rendered table body *)

Inductive tr : Type :=
| (** a data row: its [data-row-index], the row object shown, the cell texts *)
  TrRow (rowIndex : Z) (src : loc) (cells : list string)
| (** the one-cell message row *)
  TrNote (className text : string).

(** A query sent to [serverUrl]. *)
Record request : Type := {
  rq_incremental : bool;
  (** [start] when incremental, [page] otherwise *)
  rq_position : Z;
  (** [length] when incremental, [pageSize] otherwise *)
  rq_size : Z;
  rq_search : option string;
  rq_sort : option (string * direction);
}.

(** ** Options and table state *)

Record Options : Type := {
  data : list loc;
  columns : list column;
  (** a positive whole number of rows *)
  pageSize : positive;
  serverSide : bool;
  lazyLoad : bool;
  infiniteScroll : bool;
  collaborationUser : option user;
  versionHistory : bool;
  (** a whole number of entries *)
  maxVersions : nat;
}.

Record Tabelin : Type := {
  options : Options;
  currentPage : Z;
  totalPages : Z;
  isBusy : bool;
  loadedRows : Z;
  originalData : list loc;
  totalRecords : Z;
  searchTerm : string;
  sortField : string;
  sortDirection : direction;
  (** [undefined] until the first incremental load; read for truthiness only *)
  hasMoreData : bool;
  (** [cellVersions]: cell key to the array holding that cell's history *)
  cellVersions : gmap string loc;
  (** the row objects, shared by [options.data] and [originalData] *)
  rowStore : gmap loc row;
  (** the version arrays; a reference is an index, allocation appends *)
  arrayStore : list (list version);
  (** the [tbody] of [tableElement] *)
  tbody : list tr;
  (** the [loading] class of [tableElement] *)
  loading : bool;
  (** the text of [.page-info] *)
  pageInfo : string;
  (** [disabled] of the first/previous buttons and of the next/last buttons *)
  prevDisabled : bool;
  nextDisabled : bool;
  (** the header carrying the sort indicator *)
  sortedHeader : option (string * direction);
  (** the queries issued to the server, oldest first *)
  fetches : list request;
  (** the version-history dialogs appended to the document, each with its
      items in display order *)
  dialogs : list (list version);
  (** the [alert] boxes shown *)
  alerts : list string;
}.

(** Field updates: [set_f x t] is [t] after the assignment [this.f = x]. *)

Definition set_options (x : Options) (t : Tabelin) : Tabelin :=
  {| options := x; currentPage := currentPage t; totalPages := totalPages t;
     isBusy := isBusy t; loadedRows := loadedRows t;
     originalData := originalData t; totalRecords := totalRecords t;
     searchTerm := searchTerm t; sortField := sortField t;
     sortDirection := sortDirection t; hasMoreData := hasMoreData t;
     cellVersions := cellVersions t; rowStore := rowStore t;
     arrayStore := arrayStore t; tbody := tbody t; loading := loading t;
     pageInfo := pageInfo t; prevDisabled := prevDisabled t;
     nextDisabled := nextDisabled t; sortedHeader := sortedHeader t;
     fetches := fetches t; dialogs := dialogs t; alerts := alerts t |}.

Definition set_currentPage (x : Z) (t : Tabelin) : Tabelin :=
  {| options := options t; currentPage := x; totalPages := totalPages t;
     isBusy := isBusy t; loadedRows := loadedRows t;
     originalData := originalData t; totalRecords := totalRecords t;
     searchTerm := searchTerm t; sortField := sortField t;
     sortDirection := sortDirection t; hasMoreData := hasMoreData t;
     cellVersions := cellVersions t; rowStore := rowStore t;
     arrayStore := arrayStore t; tbody := tbody t; loading := loading t;
     pageInfo := pageInfo t; prevDisabled := prevDisabled t;
     nextDisabled := nextDisabled t; sortedHeader := sortedHeader t;
     fetches := fetches t; dialogs := dialogs t; alerts := alerts t |}.

Definition set_totalPages (x : Z) (t : Tabelin) : Tabelin :=
  {| options := options t; currentPage := currentPage t; totalPages := x;
     isBusy := isBusy t; loadedRows := loadedRows t;
     originalData := originalData t; totalRecords := totalRecords t;
     searchTerm := searchTerm t; sortField := sortField t;
     sortDirection := sortDirection t; hasMoreData := hasMoreData t;
     cellVersions := cellVersions t; rowStore := rowStore t;
     arrayStore := arrayStore t; tbody := tbody t; loading := loading t;
     pageInfo := pageInfo t; prevDisabled := prevDisabled t;
     nextDisabled := nextDisabled t; sortedHeader := sortedHeader t;
     fetches := fetches t; dialogs := dialogs t; alerts := alerts t |}.

Definition set_isBusy (x : bool) (t : Tabelin) : Tabelin :=
  {| options := options t; currentPage := currentPage t;
     totalPages := totalPages t; isBusy := x; loadedRows := loadedRows t;
     originalData := originalData t; totalRecords := totalRecords t;
     searchTerm := searchTerm t; sortField := sortField t;
     sortDirection := sortDirection t; hasMoreData := hasMoreData t;
     cellVersions := cellVersions t; rowStore := rowStore t;
     arrayStore := arrayStore t; tbody := tbody t; loading := loading t;
     pageInfo := pageInfo t; prevDisabled := prevDisabled t;
     nextDisabled := nextDisabled t; sortedHeader := sortedHeader t;
     fetches := fetches t; dialogs := dialogs t; alerts := alerts t |}.

Definition set_loadedRows (x : Z) (t : Tabelin) : Tabelin :=
  {| options := options t; currentPage := currentPage t;
     totalPages := totalPages t; isBusy := isBusy t; loadedRows := x;
     originalData := originalData t; totalRecords := totalRecords t;
     searchTerm := searchTerm t; sortField := sortField t;
     sortDirection := sortDirection t; hasMoreData := hasMoreData t;
     cellVersions := cellVersions t; rowStore := rowStore t;
     arrayStore := arrayStore t; tbody := tbody t; loading := loading t;
     pageInfo := pageInfo t; prevDisabled := prevDisabled t;
     nextDisabled := nextDisabled t; sortedHeader := sortedHeader t;
     fetches := fetches t; dialogs := dialogs t; alerts := alerts t |}.

Definition set_totalRecords (x : Z) (t : Tabelin) : Tabelin :=
  {| options := options t; currentPage := currentPage t;
     totalPages := totalPages t; isBusy := isBusy t;
     loadedRows := loadedRows t; originalData := originalData t;
     totalRecords := x; searchTerm := searchTerm t; sortField := sortField t;
     sortDirection := sortDirection t; hasMoreData := hasMoreData t;
     cellVersions := cellVersions t; rowStore := rowStore t;
     arrayStore := arrayStore t; tbody := tbody t; loading := loading t;
     pageInfo := pageInfo t; prevDisabled := prevDisabled t;
     nextDisabled := nextDisabled t; sortedHeader := sortedHeader t;
     fetches := fetches t; dialogs := dialogs t; alerts := alerts t |}.

Definition set_sortField (x : string) (t : Tabelin) : Tabelin :=
  {| options := options t; currentPage := currentPage t;
     totalPages := totalPages t; isBusy := isBusy t;
     loadedRows := loadedRows t; originalData := originalData t;
     totalRecords := totalRecords t; searchTerm := searchTerm t;
     sortField := x; sortDirection := sortDirection t;
     hasMoreData := hasMoreData t; cellVersions := cellVersions t;
     rowStore := rowStore t; arrayStore := arrayStore t; tbody := tbody t;
     loading := loading t; pageInfo := pageInfo t;
     prevDisabled := prevDisabled t; nextDisabled := nextDisabled t;
     sortedHeader := sortedHeader t; fetches := fetches t;
     dialogs := dialogs t; alerts := alerts t |}.

Definition set_sortDirection (x : direction) (t : Tabelin) : Tabelin :=
  {| options := options t; currentPage := currentPage t;
     totalPages := totalPages t; isBusy := isBusy t;
     loadedRows := loadedRows t; originalData := originalData t;
     totalRecords := totalRecords t; searchTerm := searchTerm t;
     sortField := sortField t; sortDirection := x;
     hasMoreData := hasMoreData t; cellVersions := cellVersions t;
     rowStore := rowStore t; arrayStore := arrayStore t; tbody := tbody t;
     loading := loading t; pageInfo := pageInfo t;
     prevDisabled := prevDisabled t; nextDisabled := nextDisabled t;
     sortedHeader := sortedHeader t; fetches := fetches t;
     dialogs := dialogs t; alerts := alerts t |}.

Definition set_hasMoreData (x : bool) (t : Tabelin) : Tabelin :=
  {| options := options t; currentPage := currentPage t;
     totalPages := totalPages t; isBusy := isBusy t;
     loadedRows := loadedRows t; originalData := originalData t;
     totalRecords := totalRecords t; searchTerm := searchTerm t;
     sortField := sortField t; sortDirection := sortDirection t;
     hasMoreData := x; cellVersions := cellVersions t;
     rowStore := rowStore t; arrayStore := arrayStore t; tbody := tbody t;
     loading := loading t; pageInfo := pageInfo t;
     prevDisabled := prevDisabled t; nextDisabled := nextDisabled t;
     sortedHeader := sortedHeader t; fetches := fetches t;
     dialogs := dialogs t; alerts := alerts t |}.

Definition set_cellVersions (x : gmap string loc) (t : Tabelin) : Tabelin :=
  {| options := options t; currentPage := currentPage t;
     totalPages := totalPages t; isBusy := isBusy t;
     loadedRows := loadedRows t; originalData := originalData t;
     totalRecords := totalRecords t; searchTerm := searchTerm t;
     sortField := sortField t; sortDirection := sortDirection t;
     hasMoreData := hasMoreData t; cellVersions := x; rowStore := rowStore t;
     arrayStore := arrayStore t; tbody := tbody t; loading := loading t;
     pageInfo := pageInfo t; prevDisabled := prevDisabled t;
     nextDisabled := nextDisabled t; sortedHeader := sortedHeader t;
     fetches := fetches t; dialogs := dialogs t; alerts := alerts t |}.

Definition set_rowStore (x : gmap loc row) (t : Tabelin) : Tabelin :=
  {| options := options t; currentPage := currentPage t;
     totalPages := totalPages t; isBusy := isBusy t;
     loadedRows := loadedRows t; originalData := originalData t;
     totalRecords := totalRecords t; searchTerm := searchTerm t;
     sortField := sortField t; sortDirection := sortDirection t;
     hasMoreData := hasMoreData t; cellVersions := cellVersions t;
     rowStore := x; arrayStore := arrayStore t; tbody := tbody t;
     loading := loading t; pageInfo := pageInfo t;
     prevDisabled := prevDisabled t; nextDisabled := nextDisabled t;
     sortedHeader := sortedHeader t; fetches := fetches t;
     dialogs := dialogs t; alerts := alerts t |}.

Definition set_arrayStore (x : list (list version)) (t : Tabelin) : Tabelin :=
  {| options := options t; currentPage := currentPage t;
     totalPages := totalPages t; isBusy := isBusy t;
     loadedRows := loadedRows t; originalData := originalData t;
     totalRecords := totalRecords t; searchTerm := searchTerm t;
     sortField := sortField t; sortDirection := sortDirection t;
     hasMoreData := hasMoreData t; cellVersions := cellVersions t;
     rowStore := rowStore t; arrayStore := x; tbody := tbody t;
     loading := loading t; pageInfo := pageInfo t;
     prevDisabled := prevDisabled t; nextDisabled := nextDisabled t;
     sortedHeader := sortedHeader t; fetches := fetches t;
     dialogs := dialogs t; alerts := alerts t |}.

Definition set_tbody (x : list tr) (t : Tabelin) : Tabelin :=
  {| options := options t; currentPage := currentPage t;
     totalPages := totalPages t; isBusy := isBusy t;
     loadedRows := loadedRows t; originalData := originalData t;
     totalRecords := totalRecords t; searchTerm := searchTerm t;
     sortField := sortField t; sortDirection := sortDirection t;
     hasMoreData := hasMoreData t; cellVersions := cellVersions t;
     rowStore := rowStore t; arrayStore := arrayStore t; tbody := x;
     loading := loading t; pageInfo := pageInfo t;
     prevDisabled := prevDisabled t; nextDisabled := nextDisabled t;
     sortedHeader := sortedHeader t; fetches := fetches t;
     dialogs := dialogs t; alerts := alerts t |}.

Definition set_loading (x : bool) (t : Tabelin) : Tabelin :=
  {| options := options t; currentPage := currentPage t;
     totalPages := totalPages t; isBusy := isBusy t;
     loadedRows := loadedRows t; originalData := originalData t;
     totalRecords := totalRecords t; searchTerm := searchTerm t;
     sortField := sortField t; sortDirection := sortDirection t;
     hasMoreData := hasMoreData t; cellVersions := cellVersions t;
     rowStore := rowStore t; arrayStore := arrayStore t; tbody := tbody t;
     loading := x; pageInfo := pageInfo t; prevDisabled := prevDisabled t;
     nextDisabled := nextDisabled t; sortedHeader := sortedHeader t;
     fetches := fetches t; dialogs := dialogs t; alerts := alerts t |}.

Definition set_pageInfo (x : string) (t : Tabelin) : Tabelin :=
  {| options := options t; currentPage := currentPage t;
     totalPages := totalPages t; isBusy := isBusy t;
     loadedRows := loadedRows t; originalData := originalData t;
     totalRecords := totalRecords t; searchTerm := searchTerm t;
     sortField := sortField t; sortDirection := sortDirection t;
     hasMoreData := hasMoreData t; cellVersions := cellVersions t;
     rowStore := rowStore t; arrayStore := arrayStore t; tbody := tbody t;
     loading := loading t; pageInfo := x; prevDisabled := prevDisabled t;
     nextDisabled := nextDisabled t; sortedHeader := sortedHeader t;
     fetches := fetches t; dialogs := dialogs t; alerts := alerts t |}.

Definition set_prevDisabled (x : bool) (t : Tabelin) : Tabelin :=
  {| options := options t; currentPage := currentPage t;
     totalPages := totalPages t; isBusy := isBusy t;
     loadedRows := loadedRows t; originalData := originalData t;
     totalRecords := totalRecords t; searchTerm := searchTerm t;
     sortField := sortField t; sortDirection := sortDirection t;
     hasMoreData := hasMoreData t; cellVersions := cellVersions t;
     rowStore := rowStore t; arrayStore := arrayStore t; tbody := tbody t;
     loading := loading t; pageInfo := pageInfo t; prevDisabled := x;
     nextDisabled := nextDisabled t; sortedHeader := sortedHeader t;
     fetches := fetches t; dialogs := dialogs t; alerts := alerts t |}.

Definition set_nextDisabled (x : bool) (t : Tabelin) : Tabelin :=
  {| options := options t; currentPage := currentPage t;
     totalPages := totalPages t; isBusy := isBusy t;
     loadedRows := loadedRows t; originalData := originalData t;
     totalRecords := totalRecords t; searchTerm := searchTerm t;
     sortField := sortField t; sortDirection := sortDirection t;
     hasMoreData := hasMoreData t; cellVersions := cellVersions t;
     rowStore := rowStore t; arrayStore := arrayStore t; tbody := tbody t;
     loading := loading t; pageInfo := pageInfo t;
     prevDisabled := prevDisabled t; nextDisabled := x;
     sortedHeader := sortedHeader t; fetches := fetches t;
     dialogs := dialogs t; alerts := alerts t |}.

Definition set_sortedHeader (x : option (string * direction)) (t : Tabelin) : Tabelin :=
  {| options := options t; currentPage := currentPage t;
     totalPages := totalPages t; isBusy := isBusy t;
     loadedRows := loadedRows t; originalData := originalData t;
     totalRecords := totalRecords t; searchTerm := searchTerm t;
     sortField := sortField t; sortDirection := sortDirection t;
     hasMoreData := hasMoreData t; cellVersions := cellVersions t;
     rowStore := rowStore t; arrayStore := arrayStore t; tbody := tbody t;
     loading := loading t; pageInfo := pageInfo t;
     prevDisabled := prevDisabled t; nextDisabled := nextDisabled t;
     sortedHeader := x; fetches := fetches t; dialogs := dialogs t;
     alerts := alerts t |}.

Definition set_fetches (x : list request) (t : Tabelin) : Tabelin :=
  {| options := options t; currentPage := currentPage t;
     totalPages := totalPages t; isBusy := isBusy t;
     loadedRows := loadedRows t; originalData := originalData t;
     totalRecords := totalRecords t; searchTerm := searchTerm t;
     sortField := sortField t; sortDirection := sortDirection t;
     hasMoreData := hasMoreData t; cellVersions := cellVersions t;
     rowStore := rowStore t; arrayStore := arrayStore t; tbody := tbody t;
     loading := loading t; pageInfo := pageInfo t;
     prevDisabled := prevDisabled t; nextDisabled := nextDisabled t;
     sortedHeader := sortedHeader t; fetches := x; dialogs := dialogs t;
     alerts := alerts t |}.

Definition set_dialogs (x : list (list version)) (t : Tabelin) : Tabelin :=
  {| options := options t; currentPage := currentPage t;
     totalPages := totalPages t; isBusy := isBusy t;
     loadedRows := loadedRows t; originalData := originalData t;
     totalRecords := totalRecords t; searchTerm := searchTerm t;
     sortField := sortField t; sortDirection := sortDirection t;
     hasMoreData := hasMoreData t; cellVersions := cellVersions t;
     rowStore := rowStore t; arrayStore := arrayStore t; tbody := tbody t;
     loading := loading t; pageInfo := pageInfo t;
     prevDisabled := prevDisabled t; nextDisabled := nextDisabled t;
     sortedHeader := sortedHeader t; fetches := fetches t; dialogs := x;
     alerts := alerts t |}.

Definition set_alerts (x : list string) (t : Tabelin) : Tabelin :=
  {| options := options t; currentPage := currentPage t;
     totalPages := totalPages t; isBusy := isBusy t;
     loadedRows := loadedRows t; originalData := originalData t;
     totalRecords := totalRecords t; searchTerm := searchTerm t;
     sortField := sortField t; sortDirection := sortDirection t;
     hasMoreData := hasMoreData t; cellVersions := cellVersions t;
     rowStore := rowStore t; arrayStore := arrayStore t; tbody := tbody t;
     loading := loading t; pageInfo := pageInfo t;
     prevDisabled := prevDisabled t; nextDisabled := nextDisabled t;
     sortedHeader := sortedHeader t; fetches := fetches t;
     dialogs := dialogs t; alerts := x |}.

(** [this.options.data = d] *)
Definition set_data (d : list loc) (t : Tabelin) : Tabelin :=
  set_options
    {| data := d; columns := columns (options t); pageSize := pageSize (options t);
       serverSide := serverSide (options t); lazyLoad := lazyLoad (options t);
       infiniteScroll := infiniteScroll (options t);
       collaborationUser := collaborationUser (options t);
       versionHistory := versionHistory (options t);
       maxVersions := maxVersions (options t) |} t.

(** ** Arrays and arithmetic of the host *)

(** The index that [slice] derives from an argument: negative arguments
    count from the end, and the result is clamped to the array. *)
Definition relIndex (len i : Z) : Z :=
  if i <? 0 then Z.max (len + i) 0 else Z.min i len.

(** [l.slice(start, stop)] *)
Definition slice {A : Type} (l : list A) (start stop : Z) : list A :=
  let len := Z.of_nat (length l) in
  let k := relIndex len start in
  let e := relIndex len stop in
  take (Z.to_nat (e - k)) (drop (Z.to_nat k) l).

(** [Math.ceil(n / s)] for a whole [n] and a positive whole [s]. *)
Definition ceilDiv (n : Z) (s : positive) : Z := - ((- n) / Z.pos s).

(** [l.length] *)
Definition len {A : Type} (l : list A) : Z := Z.of_nat (length l).

(** ** Rendering *)

(** The row object behind a reference. *)
Definition rowOf (t : Tabelin) (l : loc) : row := default ∅ (rowStore t !! l).

(** The cell text [renderData] produces.  Class names, ARIA attributes and
    the smart and conditional formatting options decorate the cell and are
    not represented. *)
Definition cellText (c : column) (r : row) : string :=
  let value := getField r (field c) in
  match render c with
  | Some f => f value r
  | None =>
      match value with
      | VUndefined | VNull => ""
      | _ => toString value
      end
  end.

Definition renderData (d : list loc) (t : Tabelin) : Tabelin :=
  if bool_decide (length d = 0%nat) then
    set_tbody [TrNote "no-data-message" "No data available"] t
  else
    set_tbody
      (imap (λ rowIndex l,
               TrRow (Z.of_nat rowIndex) l
                     (map (λ c, cellText c (rowOf t l)) (columns (options t))))
            d)
      t.

(** The cell text [appendData] produces. *)
Definition appendedCellText (c : column) (r : row) : string :=
  let value := getField r (field c) in
  match render c with
  | Some f => f value r
  | None => if truthy value then toString value else ""
  end.

Definition appendData (d : list loc) (t : Tabelin) : Tabelin :=
  let startIndex := loadedRows t in
  set_tbody
    (tbody t ++
     imap (λ index l,
             TrRow (startIndex + Z.of_nat index) l
                   (map (λ c, appendedCellText c (rowOf t l)) (columns (options t))))
          d)
    t.

Definition updatePaginationInfo (t : Tabelin) : Tabelin :=
  let size := Z.pos (pageSize (options t)) in
  let startRecord := (currentPage t - 1) * size + 1 in
  let endRecord := Z.min (currentPage t * size) (totalRecords t) in
  let pages := "Page " +:+ pretty (currentPage t) +:+ " of " +:+ pretty (totalPages t) in
  let text :=
    if serverSide (options t) then
      pages +:+ " (" +:+ pretty startRecord +:+ "-" +:+ pretty endRecord
            +:+ " of " +:+ pretty (totalRecords t) +:+ ")"
    else pages in
  set_nextDisabled (bool_decide (currentPage t = totalPages t))
    (set_prevDisabled (bool_decide (currentPage t = 1))
       (set_pageInfo text t)).

(** The reference shown by a row of the table body. *)
Definition shownRow (r : tr) : option loc :=
  match r with TrRow _ l _ => Some l | TrNote _ _ => None end.

(** The rows shown in the table body, in display order. *)
Definition renderedRows (t : Tabelin) : list loc := omap shownRow (tbody t).

(** ** Loading *)

(** [buildServerParams], without the optional [serverParams] hook. *)
Definition buildServerParams (t : Tabelin) : request :=
  let incremental := infiniteScroll (options t) || lazyLoad (options t) in
  {| rq_incremental := incremental;
     rq_position := if incremental then loadedRows t else currentPage t;
     rq_size := Z.pos (pageSize (options t));
     rq_search := if bool_decide (searchTerm t = "") then None else Some (searchTerm t);
     rq_sort := if bool_decide (sortField t = "") then None
                else Some (sortField t, sortDirection t) |}.

(** [loadServerData] up to the point where it yields: the query is sent and
    the answer is awaited. *)
Definition loadServerData (t : Tabelin) : Tabelin :=
  set_fetches (fetches t ++ [buildServerParams t]) t.

Definition loadClientData (t : Tabelin) : Tabelin :=
  let d := data (options t) in
  let size := Z.pos (pageSize (options t)) in
  let t1 :=
    if infiniteScroll (options t) || lazyLoad (options t) then
      let initialCount := Z.min size (len d) in
      let initialData := slice d 0 initialCount in
      let t' := if bool_decide (loadedRows t = 0) then renderData initialData t
                else appendData initialData t in
      let t'' := set_loadedRows initialCount t' in
      set_hasMoreData (loadedRows t'' <? len d) t''
    else
      let startIndex := (currentPage t - 1) * size in
      let endIndex := startIndex + size in
      let pageData := slice d startIndex endIndex in
      let t' := renderData pageData t in
      let t'' := set_totalRecords (len d) t' in
      updatePaginationInfo (set_totalPages (ceilDiv (len d) (pageSize (options t))) t'')
  in
  set_loading false (set_isBusy false t1).

Definition loadData (t : Tabelin) : Tabelin :=
  if isBusy t then t
  else
    let t1 := set_loading true (set_isBusy true t) in
    if serverSide (options t1) then loadServerData t1 else loadClientData t1.

Definition loadMore (t : Tabelin) : Tabelin :=
  if isBusy t || negb (hasMoreData t) then t
  else
    let t1 := set_isBusy true t in
    if serverSide (options t1) then loadServerData t1
    else
      let d := data (options t1) in
      let nextBatch :=
        slice d (loadedRows t1) (loadedRows t1 + Z.pos (pageSize (options t1))) in
      let t2 := appendData nextBatch t1 in
      let t3 := set_loadedRows (loadedRows t2 + len nextBatch) t2 in
      set_isBusy false (set_hasMoreData (loadedRows t3 <? len d) t3).

(** ** Navigation *)

Definition nextPage (t : Tabelin) : Tabelin :=
  if (currentPage t <? totalPages t) && negb (isBusy t) then
    loadData (set_currentPage (currentPage t + 1) t)
  else t.

Definition prevPage (t : Tabelin) : Tabelin :=
  if (currentPage t >? 1) && negb (isBusy t) then
    loadData (set_currentPage (currentPage t - 1) t)
  else t.

Definition goToPage (page : Z) (t : Tabelin) : Tabelin :=
  if (page >=? 1) && (page <=? totalPages t) && negb (isBusy t) then
    loadData (set_currentPage page t)
  else t.

Definition refresh (t : Tabelin) : Tabelin :=
  if infiniteScroll (options t) || lazyLoad (options t) then
    loadData (set_hasMoreData true (set_loadedRows 0 t))
  else loadData (set_currentPage 1 t).

(** ** Sorting *)

(** The text [sortBy] compares when it falls back to strings:
    [String(v || '')]. *)
Definition sortText (v : value) : string :=
  toString (if truthy v then v else VStr "").

(** The comparator that [sortBy] hands to [sort], for the direction in
    force and the rows [a] and [b]. *)
Definition sortCompare `{Host} (dir : direction) (fld : string) (a b : row)
  : number :=
  let valA := getField a fld in
  let valB := getField b fld in
  if strict_eq valA valB then Fin 0
  else
    let isNumA := negb (isNaN (parseFloat valA)) in
    let isNumB := negb (isNaN (parseFloat valB)) in
    if isNumA && isNumB then
      match dir with
      | Asc => num_sub (parseFloat valA) (parseFloat valB)
      | Desc => num_sub (parseFloat valB) (parseFloat valA)
      end
    else
      let dateA := dateOf valA in
      let dateB := dateOf valB in
      if negb (isNaN dateA) && negb (isNaN dateB) then
        match dir with
        | Asc => num_sub dateA dateB
        | Desc => num_sub dateB dateA
        end
      else
        let strA := sortText valA in
        let strB := sortText valB in
        match dir with
        | Asc => Fin (localeCompare strA strB)
        | Desc => Fin (localeCompare strB strA)
        end.

(** The comparator applied to two elements of the data array, which are
    references to row objects. *)
Definition rowCompare `{Host} (t : Tabelin) (dir : direction) (fld : string)
    (a b : loc) : number :=
  sortCompare dir fld (rowOf t a) (rowOf t b).

(** The client-side sort of the working data: a sorted copy of the array of
    row references. *)
Definition sortData `{Host} (dir : direction) (fld : string) (t : Tabelin)
  : list loc :=
  arraySort loc (rowCompare t dir fld) (data (options t)).

Definition toggle (d : direction) : direction :=
  match d with Asc => Desc | Desc => Asc end.

(** [sortBy(field)].  The header cells are those [createTable] builds, one
    per column, found by their [data-field]. *)
Definition sortBy `{Host} (fld : string) (t : Tabelin) : Tabelin :=
  if negb (existsb (λ c, bool_decide (field c = fld)) (columns (options t))) then t
  else
    let t1 :=
      if bool_decide (sortField t = fld) then
        set_sortDirection (toggle (sortDirection t)) t
      else set_sortDirection Asc (set_sortField fld t) in
    let t2 := set_sortedHeader (Some (fld, sortDirection t1)) t1 in
    if serverSide (options t2) then
      loadData (set_loadedRows 0 (set_currentPage 1 t2))
    else
      let t3 := set_data (sortData (sortDirection t2) fld t2) t2 in
      if infiniteScroll (options t3) || lazyLoad (options t3) then
        loadData (set_hasMoreData true (set_loadedRows 0 t3))
      else loadData (set_currentPage 1 t3).

(** ** Searching *)

(** The predicate [search] filters rows with. *)
Definition rowMatches (cols : list column) (lowercaseQuery : string) (r : row)
  : bool :=
  existsb
    (λ c,
       let value := getField r (field c) in
       match value with
       | VUndefined | VNull => false
       | _ => includes (toLowerCase (toString value)) lowercaseQuery
       end)
    cols.

Definition search (query : string) (t : Tabelin) : Tabelin :=
  let t1 :=
    if bool_decide (query = "") || bool_decide (trim query = "") then
      set_data (originalData t) t
    else
      let lowercaseQuery := toLowerCase query in
      set_data
        (List.filter
           (λ l, rowMatches (columns (options t)) lowercaseQuery (rowOf t l))
           (originalData t))
        t in
  if infiniteScroll (options t1) || lazyLoad (options t1) then
    loadData (set_hasMoreData true (set_loadedRows 0 t1))
  else
    loadData
      (set_totalPages (ceilDiv (len (data (options t1))) (pageSize (options t1)))
         (set_currentPage 1 t1)).

(** ** Version history *)

(** The key [`${rowIndex}:${columnField}`]. *)
Definition cellKey (rowIndex : Z) (columnField : string) : string :=
  pretty rowIndex +:+ ":" +:+ columnField.

Definition unknownUser : user :=
  {| user_id := VUndefined; user_name := VStr "Unknown User";
     user_color := VUndefined |}.

(** [addToVersionHistory]; [now] is what [Date.now()] returns during the
    call. *)
Definition addToVersionHistory (rowIndex : Z) (columnField : string)
    (v : value) (u : option user) (now : Z) (t : Tabelin) : Tabelin :=
  if negb (versionHistory (options t)) then t
  else
    let key := cellKey rowIndex columnField in
    let t1 :=
      match cellVersions t !! key with
      | Some _ => t
      | None =>
          set_cellVersions (<[key := length (arrayStore t)]> (cellVersions t))
            (set_arrayStore (arrayStore t ++ [[]]) t)
      end in
    match cellVersions t1 !! key with
    | None => t1
    | Some versions =>
        let pushed :=
          default [] (arrayStore t1 !! versions)
          ++ [{| v_value := v; v_timestamp := now;
                 v_user := default unknownUser u |}] in
        let kept :=
          if len pushed >? Z.of_nat (maxVersions (options t1)) then tail pushed
          else pushed in
        set_arrayStore (<[versions := kept]> (arrayStore t1)) t1
    end.

(** [getCellVersionHistory]: a reference to the stored array itself, or to
    a new empty array when the cell has no history. *)
Definition getCellVersionHistory (rowIndex : Z) (columnField : string)
    (t : Tabelin) : loc * Tabelin :=
  match cellVersions t !! cellKey rowIndex columnField with
  | Some versions => (versions, t)
  | None => (length (arrayStore t), set_arrayStore (arrayStore t ++ [[]]) t)
  end.

(** The history stored under a key, read through [cellVersions]. *)
Definition historyAt (key : string) (t : Tabelin) : list version :=
  match cellVersions t !! key with
  | Some versions => default [] (arrayStore t !! versions)
  | None => []
  end.

(** The history stored for a cell. *)
Definition storedHistory (rowIndex : Z) (columnField : string) (t : Tabelin)
  : list version :=
  historyAt (cellKey rowIndex columnField) t.

(** One call of [addToVersionHistory] with the clock reading during it. *)
Record edit : Type := {
  e_row : Z;
  e_field : string;
  e_value : value;
  e_user : option user;
  e_time : Z;
}.

Definition recordEdit (t : Tabelin) (e : edit) : Tabelin :=
  addToVersionHistory (e_row e) (e_field e) (e_value e) (e_user e) (e_time e) t.

(** The entry that a call appends. *)
Definition entryOf (e : edit) : version :=
  {| v_value := e_value e; v_timestamp := e_time e;
     v_user := default unknownUser (e_user e) |}.

(** The calls, in order, that address the cell with the given key. *)
Definition editsOf (key : string) (es : list edit) : list edit :=
  List.filter (λ e, bool_decide (cellKey (e_row e) (e_field e) = key)) es.

(** Every stored array exists and no two keys share one. *)
Definition historyWf (t : Tabelin) : Prop :=
  (∀ key ref, cellVersions t !! key = Some ref → (ref < length (arrayStore t))%nat) ∧
  (∀ k1 k2 ref, cellVersions t !! k1 = Some ref →
                cellVersions t !! k2 = Some ref → k1 = k2).

(** What the length check of [addToVersionHistory] keeps of an array. *)
Definition bounded (limit : nat) (l : list version) : list version :=
  if len l >? Z.of_nat limit then tail l else l.

(** The last [n] elements. *)
Definition lastN {A : Type} (n : nat) (l : list A) : list A :=
  drop (length l - n) l.

(** The comparator of [showVersionHistory]: [b.timestamp - a.timestamp]. *)
Definition newestFirst (a b : version) : number :=
  Fin (v_timestamp b - v_timestamp a).

(** [showVersionHistory]: the array obtained from [getCellVersionHistory]
    is sorted in place, newest first, and listed in a dialog. *)
Definition showVersionHistory `{Host} (rowIndex : Z) (columnField : string)
    (t : Tabelin) : Tabelin :=
  let '(versions, t1) := getCellVersionHistory rowIndex columnField t in
  let contents := default [] (arrayStore t1 !! versions) in
  if bool_decide (length contents = 0%nat) then
    set_alerts (alerts t1 ++ ["No version history available for this cell."]) t1
  else
    let sorted := arraySort version newestFirst contents in
    let t2 := set_arrayStore (<[versions := sorted]> (arrayStore t1)) t1 in
    set_dialogs (dialogs t2 ++ [sorted]) t2.

(** ** Collaboration *)

(** An inbound message; an absent property is [None] (or [VUndefined]) and
    an absent or empty [type] is [""]. *)
Record message : Type := {
  m_type : string;
  m_rowIndex : option Z;
  m_columnField : option string;
  m_value : value;
  m_user : option user;
}.

(** The position of the first column with the given field. *)
Fixpoint findColumn (columnField : string) (cols : list column) : option nat :=
  match cols with
  | [] => None
  | c :: cols' =>
      if bool_decide (field c = columnField) then Some 0%nat
      else S <$> findColumn columnField cols'
  end.

(** [data[rowIndex]] *)
Definition rowAt (t : Tabelin) (rowIndex : Z) : option loc :=
  if rowIndex <? 0 then None else data (options t) !! Z.to_nat rowIndex.

(** The text a collaboration update gives a cell. *)
Definition changedCellText (c : option column) (v : value) (r : row) : string :=
  match c ≫= render with
  | Some f => f v r
  | None =>
      match v with
      | VUndefined | VNull => ""
      | _ => toString v
      end
  end.

(** Rewrites cell [columnIndex] of the first row whose [data-row-index] is
    [rowIndex]. *)
Fixpoint updateCell (rowIndex : Z) (columnIndex : nat) (text : string)
    (body : list tr) : list tr :=
  match body with
  | [] => []
  | TrRow i l cells :: body' =>
      if bool_decide (i = rowIndex) then
        TrRow i l (<[columnIndex := text]> cells) :: body'
      else TrRow i l cells :: updateCell rowIndex columnIndex text body'
  | r :: body' => r :: updateCell rowIndex columnIndex text body'
  end.

(** [updateCellFromCollaboration]; the highlight and the tooltip it shows
    for a few seconds are not represented. *)
Definition updateCellFromCollaboration (rowIndex : Z) (columnField : string)
    (v : value) (u : option user) (now : Z) (t : Tabelin) : Tabelin :=
  let own :=
    match u, collaborationUser (options t) with
    | Some sender, Some me => strict_eq (user_id sender) (user_id me)
    | _, _ => false
    end in
  if own then t
  else
    match findColumn columnField (columns (options t)) with
    | None => t
    | Some columnIndex =>
        match rowAt t rowIndex with
        | None => t
        | Some l =>
            let r := <[columnField := v]> (rowOf t l) in
            let t1 := set_rowStore (<[l := r]> (rowStore t)) t in
            let text :=
              changedCellText (columns (options t1) !! columnIndex) v r in
            let t2 := set_tbody (updateCell rowIndex columnIndex text (tbody t1)) t1 in
            if versionHistory (options t2) then
              addToVersionHistory rowIndex columnField v u now t2
            else t2
        end
    end.

(** [handleCollaborationMessage].  The presence roster and the remote
    cursors are overlays outside the table state. *)
Definition handleCollaborationMessage (m : message) (now : Z) (t : Tabelin)
  : Tabelin :=
  if bool_decide (m_type m = "") then t
  else if bool_decide (m_type m = "cell-change") then
    match m_rowIndex m, m_columnField m with
    | Some rowIndex, Some columnField =>
        if bool_decide (m_value m = VUndefined) then t
        else updateCellFromCollaboration rowIndex columnField (m_value m)
                                         (m_user m) now t
    | _, _ => t
    end
  else t.

(** ** The rules engine *)

(** What a condition's [value] may hold: a scalar, an array of scalars, or
    a predicate function (with its source text, which is what the function
    turns into under string conversion).  A function that throws yields
    [None]. *)
Inductive operand : Type :=
| OValue (v : value)
| OArray (items : list value)
| OFunction (f : value → row → option column → option value) (source : string).

Record condition : Type := {
  operator : string;
  cond_value : operand;
}.

(** [items.join(",")], the string conversion of an array. *)
Fixpoint join (items : list value) : string :=
  let text v := match v with VUndefined | VNull => "" | _ => toString v end in
  match items with
  | [] => ""
  | [v] => text v
  | v :: items' => text v +:+ "," +:+ join items'
  end.

Definition toPrimitive (o : operand) : value :=
  match o with
  | OValue v => v
  | OArray items => VStr (join items)
  | OFunction _ source => VStr source
  end.

(** [rulesEngine.evaluateCondition(condition, row, column, value)].  An
    exception raised while evaluating is caught and turns into [false]. *)
Definition evaluateCondition `{Host} (c : option condition) (r : row)
    (col : option column) (v : value) : value :=
  match c with
  | None => VBool false
  | Some c =>
      let op := operator c in
      let operand := cond_value c in
      let opIs s := bool_decide (op = s) in
      if opIs "=" || opIs "==" then VBool (loose_eq v (toPrimitive operand))
      else if opIs "===" then
        VBool (match operand with OValue w => strict_eq v w | _ => false end)
      else if opIs "!=" || opIs "<>" then VBool (negb (loose_eq v (toPrimitive operand)))
      else if opIs "!==" then
        VBool (negb (match operand with OValue w => strict_eq v w | _ => false end))
      else if opIs ">" then
        VBool (num_gt (toNumber v) (toNumber (toPrimitive operand)))
      else if opIs ">=" then
        VBool (num_ge (toNumber v) (toNumber (toPrimitive operand)))
      else if opIs "<" then
        VBool (num_lt (toNumber v) (toNumber (toPrimitive operand)))
      else if opIs "<=" then
        VBool (num_le (toNumber v) (toNumber (toPrimitive operand)))
      else if opIs "contains" then
        VBool (includes (toString v) (toString (toPrimitive operand)))
      else if opIs "not_contains" then
        VBool (negb (includes (toString v) (toString (toPrimitive operand))))
      else if opIs "starts_with" then
        VBool (startsWith (toString v) (toString (toPrimitive operand)))
      else if opIs "ends_with" then
        VBool (endsWith (toString v) (toString (toPrimitive operand)))
      else if opIs "regex" then
        VBool (default false
                 (regexTest (toString (toPrimitive operand)) (toString v)))
      else if opIs "in" then
        VBool (match operand with
               | OArray items => existsb (sameValueZero v) items
               | _ => false
               end)
      else if opIs "not_in" then
        VBool (match operand with
               | OArray items => negb (existsb (sameValueZero v) items)
               | _ => false
               end)
      else if opIs "is_null" then
        VBool (strict_eq v VNull || strict_eq v VUndefined)
      else if opIs "is_not_null" then
        VBool (negb (strict_eq v VNull) && negb (strict_eq v VUndefined))
      else if opIs "is_empty" then
        VBool (strict_eq v (VStr "") || strict_eq v VNull || strict_eq v VUndefined)
      else if opIs "is_not_empty" then
        VBool (negb (strict_eq v (VStr "")) && negb (strict_eq v VNull)
               && negb (strict_eq v VUndefined))
      else if opIs "function" then
        match operand with
        | OFunction f _ => default (VBool false) (f v r col)
        | _ => VBool false
        end
      else VBool false
  end.

(** A rule with a target field, as [evaluateRule] reads it. *)
Record rule : Type := {
  rule_field : string;
  rule_condition : option condition;
}.

(** [rulesEngine.evaluateRule(rule, row)] for a rule with a target field,
    leaving out the cache of earlier results. *)
Definition evaluateRule `{Host} (cols : list column) (ru : rule) (r : row)
  : value :=
  let col := List.find (λ c, bool_decide (field c = rule_field ru)) cols in
  evaluateCondition (rule_condition ru) r col (getField r (rule_field ru)).

(** ** The answer of the server *)

(** The parsed body of a reply; a property the server left out is [None]. *)
Record response : Type := {
  (** [items], or else [data] *)
  resp_rows : option (list row);
  resp_totalPages : option Z;
  resp_totalRecords : option Z;
  resp_recordsTotal : option Z;
  resp_recordsFiltered : option Z;
}.

(** [a || b] on a count that may be absent. *)
Definition orElse (a : option Z) (b : Z) : Z :=
  match a with
  | Some n => if bool_decide (n = 0) then b else n
  | None => b
  end.

(** Stores freshly parsed row objects and returns their references. *)
Fixpoint allocRows (rs : list row) (store : gmap loc row)
  : list loc * gmap loc row :=
  match rs with
  | [] => ([], store)
  | r :: rs' =>
      let l := fresh (dom store) in
      let '(ls, store') := allocRows rs' (<[l := r]> store) in
      (l :: ls, store')
  end.

(** The continuation of [loadServerData] that receives the reply. *)
Definition onServerData (reply : response) (t : Tabelin) : Tabelin :=
  let '(received, store) := allocRows (default [] (resp_rows reply)) (rowStore t) in
  let t0 := set_rowStore store t in
  let t1 :=
    if infiniteScroll (options t0) || lazyLoad (options t0) then
      let t' := appendData received t0 in
      let t'' := set_loadedRows (loadedRows t' + len received) t' in
      set_hasMoreData (len received >=? Z.pos (pageSize (options t''))) t''
    else
      let t' := renderData received t0 in
      let pages :=
        orElse (resp_totalPages reply)
          (orElse ((λ n, ceilDiv n (pageSize (options t'))) <$> resp_totalRecords reply)
                  1) in
      let records :=
        orElse (resp_totalRecords reply)
          (orElse (resp_recordsTotal reply)
             (orElse (resp_recordsFiltered reply) 0)) in
      updatePaginationInfo (set_totalRecords records (set_totalPages pages t'))
  in
  set_loading false (set_isBusy false t1).

(** The continuation that receives a failure. *)
Definition onServerError (errorMessage : string) (t : Tabelin) : Tabelin :=
  set_tbody [TrNote "error-message" ("Error loading data: " +:+ errorMessage)]
    (set_loading false (set_isBusy false t)).

(** ** Export *)

(** The key of a column in an exported row: [column.title || column.field]. *)
Definition exportKey (c : column) : string :=
  if bool_decide (title c = "") then field c else title c.

(** The object built for one row: each column's value is assigned under
    the column's key, in column order. *)
Definition exportRow (cols : list column) (r : row) : gmap string value :=
  foldl (λ acc c, <[exportKey c := getField r (field c)]> acc) ∅ cols.

(** [getExportData] *)
Definition getExportData (t : Tabelin) : list (gmap string value) :=
  if serverSide (options t) then
    (λ l, exportRow (columns (options t)) (rowOf t l)) <$> data (options t)
  else
    let sourceData :=
      if infiniteScroll (options t) || lazyLoad (options t) then originalData t
      else data (options t) in
    (λ l, exportRow (columns (options t)) (rowOf t l)) <$> sourceData.

(** ** Outbound collaboration *)

(** A message of the table to its collaborators. *)
Inductive outbound : Type :=
| (** [{type: 'cell-change', rowIndex, columnField, value, user, timestamp}] *)
  CellChanged (rowIndex : Z) (columnField : string) (v : value) (u : user)
              (timestamp : Z)
| (** [{type: 'cursor-position', position, user, timestamp}] *)
  CursorMoved (rowIndex columnIndex : Z) (u : user) (timestamp : Z)
| (** [{type: 'connect', user, tableId}]; without a collaboration user the
      message names an anonymous one *)
  Connected (u : option user).

(** The table with its collaboration channel. *)
Record Session : Type := {
  table : Tabelin;
  (** [options.collaboration] *)
  collaboration : bool;
  (** [options.collaborationMode] *)
  collaborationMode : string;
  (** [collaborationSocket] is set and its [readyState] is [OPEN] *)
  socketOpen : bool;
  pendingChanges : list outbound;
  (** what was handed to [collaborationSocket.send], oldest first *)
  socketSent : list outbound;
  (** the batches posted to [collaborationUrl + '/changes'], oldest first *)
  posted : list (list outbound);
}.

Definition set_table (x : Tabelin) (s : Session) : Session :=
  {| table := x; collaboration := collaboration s;
     collaborationMode := collaborationMode s; socketOpen := socketOpen s;
     pendingChanges := pendingChanges s; socketSent := socketSent s;
     posted := posted s |}.

Definition set_socketOpen (x : bool) (s : Session) : Session :=
  {| table := table s; collaboration := collaboration s;
     collaborationMode := collaborationMode s; socketOpen := x;
     pendingChanges := pendingChanges s; socketSent := socketSent s;
     posted := posted s |}.

Definition set_pendingChanges (x : list outbound) (s : Session) : Session :=
  {| table := table s; collaboration := collaboration s;
     collaborationMode := collaborationMode s; socketOpen := socketOpen s;
     pendingChanges := x; socketSent := socketSent s; posted := posted s |}.

Definition set_socketSent (x : list outbound) (s : Session) : Session :=
  {| table := table s; collaboration := collaboration s;
     collaborationMode := collaborationMode s; socketOpen := socketOpen s;
     pendingChanges := pendingChanges s; socketSent := x; posted := posted s |}.

Definition set_posted (x : list (list outbound)) (s : Session) : Session :=
  {| table := table s; collaboration := collaboration s;
     collaborationMode := collaborationMode s; socketOpen := socketOpen s;
     pendingChanges := pendingChanges s; socketSent := socketSent s;
     posted := x |}.

(** [{ name: 'Local User' }] *)
Definition localUser : user :=
  {| user_id := VUndefined; user_name := VStr "Local User";
     user_color := VUndefined |}.

(** Hands a message to the socket when the mode is [websocket] and the
    socket is open, and queues it otherwise. *)
Definition dispatch (m : outbound) (s : Session) : Session :=
  if bool_decide (collaborationMode s = "websocket") && socketOpen s then
    set_socketSent (socketSent s ++ [m]) s
  else set_pendingChanges (pendingChanges s ++ [m]) s.

(** [sendCellChange]; [now] is the reading of [Date.now()]. *)
Definition sendCellChange (rowIndex : Z) (columnField : string) (v : value)
    (now : Z) (s : Session) : Session :=
  dispatch
    (CellChanged rowIndex columnField v
       (default localUser (collaborationUser (options (table s)))) now)
    s.

(** [sendCursorPosition] *)
Definition sendCursorPosition (rowIndex columnIndex : Z) (now : Z) (s : Session)
  : Session :=
  match collaborationUser (options (table s)) with
  | None => s
  | Some me =>
      if negb (collaboration s)
         || (bool_decide (collaborationMode s = "websocket")
             && negb (socketOpen s))
      then s
      else
        let m := CursorMoved rowIndex columnIndex me now in
        if bool_decide (collaborationMode s = "websocket") then
          set_socketSent (socketSent s ++ [m]) s
        else set_pendingChanges (pendingChanges s ++ [m]) s
  end.

(** [sendPendingChanges] up to the point where it yields: the queue is
    emptied and its content posted as one batch. *)
Definition sendPendingChanges (s : Session) : Session :=
  if bool_decide (length (pendingChanges s) = 0%nat) then s
  else set_posted (posted s ++ [pendingChanges s]) (set_pendingChanges [] s).

(** The continuation of [sendPendingChanges] that receives a failure of
    the post of [changes]. *)
Definition onPostFailed (changes : list outbound) (s : Session) : Session :=
  set_pendingChanges (pendingChanges s ++ changes) s.

(** The continuation of [fetchCollaborationChanges] that receives the
    changes, each handled at its own reading of the clock. *)
Definition onChangesFetched (changes : list (message * Z)) (s : Session)
  : Session :=
  set_table
    (foldl (λ t c, handleCollaborationMessage c.1 c.2 t) (table s) changes) s.

(** The user under whose name a restored version is recorded. *)
Definition restorer (t : Tabelin) : user :=
  let me := collaborationUser (options t) in
  {| user_id := default VUndefined (user_id <$> me);
     user_name :=
       VStr (toString (default VUndefined (user_name <$> me)) +:+ " (restored)");
     user_color := VUndefined |}.

(** [restoreVersion]; [sendTime] and [recordTime] are the readings of
    [Date.now()] in [sendCellChange] and in [addToVersionHistory]. *)
Definition restoreVersion (rowIndex : Z) (columnField : string) (v : value)
    (sendTime recordTime : Z) (s : Session) : Session :=
  let t := table s in
  match rowAt t rowIndex with
  | None => s
  | Some l =>
      let r := <[columnField := v]> (rowOf t l) in
      let t1 := set_rowStore (<[l := r]> (rowStore t)) t in
      match findColumn columnField (columns (options t1)) with
      | None => set_table t1 s
      | Some columnIndex =>
          let text :=
            changedCellText (columns (options t1) !! columnIndex) v r in
          let t2 :=
            set_tbody (updateCell rowIndex columnIndex text (tbody t1)) t1 in
          let s1 :=
            sendCellChange rowIndex columnField v sendTime (set_table t2 s) in
          set_table
            (addToVersionHistory rowIndex columnField v
               (Some (restorer (table s1))) recordTime (table s1))
            s1
      end
  end.

(** The edit of a cell that [makeTableEditable] installs: the cell at
    [columnIndex] of the body row at [position] is double-clicked and the
    text [typed] is committed.  [isEditable] reads [column.editable !==
    false]. *)
Definition editCell (isEditable : column → bool) (position columnIndex : nat)
    (typed : string) (sendTime recordTime : Z) (s : Session) : Session :=
  let t := table s in
  match tbody t !! position with
  | Some (TrRow rowIndex shown cells) =>
      match cells !! columnIndex, columns (options t) !! columnIndex,
            rowAt t rowIndex with
      | Some _, Some column, Some l =>
          if negb (isEditable column) then s
          else
            let value := getField (rowOf t l) (field column) in
            if strict_eq (VStr typed) value then s
            else
              let r := <[field column := VStr typed]> (rowOf t l) in
              let t1 := set_rowStore (<[l := r]> (rowStore t)) t in
              let text :=
                match render column with
                | Some f => f (VStr typed) r
                | None => typed
                end in
              let t2 :=
                set_tbody
                  (<[position := TrRow rowIndex shown (<[columnIndex := text]> cells)]>
                     (tbody t1))
                  t1 in
              let s1 :=
                sendCellChange rowIndex (field column) (VStr typed) sendTime
                               (set_table t2 s) in
              if versionHistory (options (table s1)) then
                set_table
                  (addToVersionHistory rowIndex (field column) (VStr typed)
                     (Some (default localUser
                                    (collaborationUser (options (table s1)))))
                     recordTime (table s1))
                  s1
              else s1
      | _, _, _ => s
      end
  | _ => s
  end.

(** ** The socket *)

(** The [onopen] handler of [initWebSocketConnection]. *)
Definition onSocketOpen (s : Session) : Session :=
  set_socketSent
    (socketSent s ++ [Connected (collaborationUser (options (table s)))])
    (set_socketOpen true s).

(** The [onclose] handler: the socket is gone, and the one that replaces
    it after a delay is not open until its own [onopen]. *)
Definition onSocketClose (s : Session) : Session := set_socketOpen false s.

(** What can happen to a session in [websocket] mode.  [initCollaboration]
    starts the timer that calls [sendPendingChanges] in [polling] mode
    only, so no event of this mode calls it. *)
Inductive websocketEvent : Session → Session → Prop :=
| SocketOpens s :
    collaborationMode s = "websocket" → websocketEvent s (onSocketOpen s)
| SocketCloses s :
    collaborationMode s = "websocket" → websocketEvent s (onSocketClose s)
| MessageArrives s m now :
    collaborationMode s = "websocket" →
    websocketEvent s (set_table (handleCollaborationMessage m now (table s)) s)
| ViewChanges s (op : Tabelin → Tabelin) :
    collaborationMode s = "websocket" →
    websocketEvent s (set_table (op (table s)) s)
| CellEdited s isEditable position columnIndex typed sendTime recordTime :
    collaborationMode s = "websocket" →
    websocketEvent s
      (editCell isEditable position columnIndex typed sendTime recordTime s)
| VersionRestored s rowIndex columnField v sendTime recordTime :
    collaborationMode s = "websocket" →
    websocketEvent s
      (restoreVersion rowIndex columnField v sendTime recordTime s)
| CursorMoves s rowIndex columnIndex now :
    collaborationMode s = "websocket" →
    websocketEvent s (sendCursorPosition rowIndex columnIndex now s).

(** ** The cache of the rules engine *)

(** [JSON.stringify] where the host decides the text. *)
Class Json : Type := {
  (** [JSON.stringify(s)] for a string [s]: the quoted, escaped text *)
  quoteString : string → string;
  (** [JSON.stringify(rule)] *)
  stringifyRule : rule → string;
}.

(** [`${JSON.stringify(v)}`] for a primitive value: [JSON.stringify] gives
    [undefined] for [undefined], and [null] for a number that is not
    finite. *)
Definition stringify `{Json} (v : value) : string :=
  match v with
  | VUndefined => "undefined"
  | VNull => "null"
  | VBool b => toString (VBool b)
  | VNum (Fin z) => pretty z
  | VNum _ => "null"
  | VStr s => quoteString s
  end.

(** The key under which [evaluateRule] caches a result. *)
Definition cacheKey `{Json} (ru : rule) (v : value) : string :=
  stringifyRule ru +:+ "-" +:+ stringify v.

(** [rulesEngine.evaluateRule(rule, row)] for a rule with a target field,
    with the cache [ruleEvaluations] it reads and fills. *)
Definition evaluateRuleCached `{Host} `{Json} (cols : list column) (ru : rule)
    (r : row) (ruleEvaluations : gmap string value)
  : value * gmap string value :=
  let col := List.find (λ c, bool_decide (field c = rule_field ru)) cols in
  let value := getField r (rule_field ru) in
  let key := cacheKey ru value in
  match ruleEvaluations !! key with
  | Some result => (result, ruleEvaluations)
  | None =>
      let result := evaluateCondition (rule_condition ru) r col value in
      (result, <[key := result]> ruleEvaluations)
  end.

(** ** Construction *)

(** [new Tabelin(options)] for options with a [data] array and [columns],
    over the store holding the caller's row objects: the state the
    constructor leaves after its first [loadData]. *)
Definition construct (o : Options) (store : gmap loc row) : Tabelin :=
  loadData
    {| options := o; currentPage := 1; totalPages := 1; isBusy := false;
       loadedRows := 0; originalData := data o; totalRecords := 0;
       searchTerm := ""; sortField := ""; sortDirection := Asc;
       hasMoreData := false; cellVersions := ∅; rowStore := store;
       arrayStore := []; tbody := []; loading := false; pageInfo := "";
       prevDisabled := false; nextDisabled := false; sortedHeader := None;
       fetches := []; dialogs := []; alerts := [] |}.

(** ** Notions used in the statements *)




(** [sub] occurs in [s]. *)
Definition occursIn (sub s : string) : Prop :=
  ∃ pre post, s = pre +:+ sub +:+ post.



(** The table pages on the client and no load is under way. *)
Definition clientPaged (t : Tabelin) : Prop :=
  isBusy t = false ∧ serverSide (options t) = false ∧
  infiniteScroll (options t) = false ∧ lazyLoad (options t) = false.

(** The page numbers [1..n]. *)
Definition pageNumbers (n : Z) : list Z := (λ i, Z.of_nat i + 1) <$> seq 0 (Z.to_nat n).

(** The timestamps grow strictly along the history, as they do when each
    version is recorded at a later clock reading than the one before. *)
Definition increasing (h : list version) : Prop :=
  StronglySorted (λ a b, v_timestamp a < v_timestamp b) h.




(** The comparator agrees with the ranks on [x] against all of [l]. *)
Definition rankedAgainst {A : Type} (cmp : A → A → number) (key : A → Z)
    (x : A) (l : list A) : Prop :=
  Forall (λ y, sortSign (cmp x y) = Z.sgn (key x - key y)) l.

(** ** Scenarios *)

(** Client-side options over [d] with one column per field in [fields]. *)
Definition clientOptions (d : list loc) (fields : list string) (size : positive)
  : Options :=
  {| data := d;
     columns := map (λ f, {| field := f; title := f; render := None |}) fields;
     pageSize := size; serverSide := false; lazyLoad := false;
     infiniteScroll := false; collaborationUser := None;
     versionHistory := false; maxVersions := 10 |}.

(** A store of [n] rows [{n: 1}], ..., [{n: n}] at references [0..n-1]. *)
Definition numberedRows (n : nat) : gmap loc row :=
  list_to_map (map (λ i, (i, {[ "n" := VNum (Fin (Z.of_nat i + 1)) ]})) (seq 0 n)).

(** Twenty-five rows, ten to a page. *)
Definition table25 : Tabelin :=
  construct (clientOptions (seq 0 25) ["n"] 10) (numberedRows 25).

(** The same table with no rows. *)
Definition table0 : Tabelin :=
  construct (clientOptions [] ["n"] 10) ∅.


(** Two rows that tie on [n]: [{n: 7, id: "a"}] and [{n: 7, id: "b"}],
    and a third [{n: 3, id: "c"}]. *)
Definition tiedTable : Tabelin :=
  construct (clientOptions (seq 0 3) ["n"; "id"] 10)
    (list_to_map
       [(0%nat, {[ "n" := VNum (Fin 7); "id" := VStr "a" ]});
        (1%nat, {[ "n" := VNum (Fin 7); "id" := VStr "b" ]});
        (2%nat, {[ "n" := VNum (Fin 3); "id" := VStr "c" ]})]).

(** A collaborating user. *)
Definition alice : user :=
  {| user_id := VStr "u1"; user_name := VStr "Alice"; user_color := VUndefined |}.

Definition bob : user :=
  {| user_id := VStr "u2"; user_name := VStr "Bob"; user_color := VUndefined |}.

(** Three rows on one page, edited together by [alice], with version
    history kept, at most [limit] entries a cell. *)
Definition sharedTable (limit : nat) : Tabelin :=
  construct
    {| data := seq 0 3;
       columns := [{| field := "n"; title := "N"; render := None |}];
       pageSize := 10; serverSide := false; lazyLoad := false;
       infiniteScroll := false; collaborationUser := Some alice;
       versionHistory := true; maxVersions := limit |}
    (numberedRows 3).

(** The message that reports [sender] setting cell [n] of row 1 to 99. *)
Definition cellChange (sender : user) : message :=
  {| m_type := "cell-change"; m_rowIndex := Some 1; m_columnField := Some "n";
     m_value := VNum (Fin 99); m_user := Some sender |}.

(** A local edit of cell [n] of row [rowIndex] by [alice] at time [now]. *)
Definition editAt (rowIndex : Z) (v : string) (now : Z) : edit :=
  {| e_row := rowIndex; e_field := "n"; e_value := VStr v;
     e_user := Some alice; e_time := now |}.

(** Three versions of one cell, with an edit of another cell in between. *)
Definition threeVersions : list edit :=
  [editAt 0 "v1" 1; editAt 0 "v2" 2; editAt 1 "w" 2; editAt 0 "v3" 3].

(** Eleven versions of one cell. *)
Definition elevenVersions : list edit :=
  (λ i, editAt 0 ("v" +:+ pretty i) (Z.of_nat i)) <$> seq 1 11.

(** Two versions of one cell recorded within the same millisecond. *)
Definition twoAtOnce : list edit := [editAt 0 "v1" 5; editAt 0 "v2" 5].

(** The condition [{operator: op, value: w}]. *)
Definition cond (op : string) (w : operand) : option condition :=
  Some {| operator := op; cond_value := w |}.

(** The slice of the working data that belongs on the current page. *)
Definition pageSlice (t : Tabelin) : list loc :=
  let size := Z.pos (pageSize (options t)) in
  slice (data (options t)) ((currentPage t - 1) * size)
        ((currentPage t - 1) * size + size).

(** A client-side paged table at rest: no load under way, a current page
    of at least 1, the counts those of the working data, and the body
    showing the slice of the current page. *)
Definition settled (t : Tabelin) : Prop :=
  clientPaged t ∧ 1 ≤ currentPage t ∧
  totalPages t = ceilDiv (len (data (options t))) (pageSize (options t)) ∧
  totalRecords t = len (data (options t)) ∧
  renderedRows t = pageSlice t.

(** The records behind the view are those of [t]: the row objects, the
    original data and the version histories. *)
Definition sameRecords (t t' : Tabelin) : Prop :=
  rowStore t' = rowStore t ∧ originalData t' = originalData t ∧
  cellVersions t' = cellVersions t ∧ arrayStore t' = arrayStore t.

(** A client-side table that loads its rows in batches, at rest: no load
    under way, and the body showing the first [loadedRows] rows of the
    working data, with [hasMoreData] telling whether rows are left. *)
Definition streamed (t : Tabelin) : Prop :=
  let d := data (options t) in
  serverSide (options t) = false ∧
  infiniteScroll (options t) || lazyLoad (options t) = true ∧
  isBusy t = false ∧
  0 ≤ loadedRows t ≤ len d ∧
  renderedRows t = take (Z.to_nat (loadedRows t)) d ∧
  hasMoreData t = (loadedRows t <? len d).

(** Twenty-five rows, loaded lazily ten at a time. *)
Definition lazyOptions : Options :=
  {| data := seq 0 25;
     columns := [{| field := "n"; title := "N"; render := None |}];
     pageSize := 10; serverSide := false; lazyLoad := true;
     infiniteScroll := false; collaborationUser := None;
     versionHistory := false; maxVersions := 10 |}.

Definition lazyTable : Tabelin := construct lazyOptions (numberedRows 25).

(** What [allocRows] returns for [rs] over [store]: the store is extended,
    the references hold the rows in order, and they are new and distinct. *)
Definition rowStore_extends (rs : list row) (store : gmap loc row)
    (result : list loc * gmap loc row) : Prop :=
  store ⊆ result.2 ∧
  Forall2 (λ l r, result.2 !! l = Some r) result.1 rs ∧
  Forall (λ l, l ∉ dom store) result.1 ∧
  NoDup result.1.

(** A server-side paged table with one column and no initial data, after
    its constructor: the first query is on its way. *)
Definition serverTable : Tabelin :=
  construct
    {| data := [];
       columns := [{| field := "n"; title := "N"; render := None |}];
       pageSize := 10; serverSide := true; lazyLoad := false;
       infiniteScroll := false; collaborationUser := None;
       versionHistory := false; maxVersions := 10 |}
    ∅.

(** The row object and the cell texts that the body shows at a position. *)
Definition shownAt (t : Tabelin) (position : nat) : option (loc * list string) :=
  match tbody t !! position with
  | Some (TrRow _ l cells) => Some (l, cells)
  | _ => None
  end.

(** Twenty-five rows, ten to a page, edited together by [alice], with
    version history kept; and the same table on its second page. *)
Definition sharedPaged : Tabelin :=
  construct
    {| data := seq 0 25;
       columns := [{| field := "n"; title := "N"; render := None |}];
       pageSize := 10; serverSide := false; lazyLoad := false;
       infiniteScroll := false; collaborationUser := Some alice;
       versionHistory := true; maxVersions := 10 |}
    (numberedRows 25).

Definition sharedPage2 : Tabelin := set_currentPage 2 sharedPaged.

(** A session over [t] that polls: changes are queued and posted in
    batches. *)
Definition pollingSession (t : Tabelin) : Session :=
  {| table := t; collaboration := true; collaborationMode := "polling";
     socketOpen := false; pendingChanges := []; socketSent := [];
     posted := [] |}.

(** Two outcomes that are booleans and each other's negation. *)
Definition complements (a b : value) : Prop :=
  ∃ x : bool, a = VBool x ∧ b = VBool (negb x).

(** Two columns that carry the same title. *)
Definition sameTitleColumns : list column :=
  [{| field := "first"; title := "Name"; render := None |};
   {| field := "last"; title := "Name"; render := None |}].




(** A [JSON.stringify] for the scenarios: strings without characters to
    escape, and rules told apart by field and operator. *)
Definition plainJson : Json :=
  {| quoteString := λ s, String (ascii_of_nat 34) (s +:+ String (ascii_of_nat 34) "");
     stringifyRule := λ ru,
       rule_field ru +:+ "/" +:+ default "" (operator <$> rule_condition ru) |}.

(** The rule that the field [age] is missing. *)
Definition ageIsNull : rule :=
  {| rule_field := "age"; rule_condition := cond "is_null" (OValue VUndefined) |}.

(** A session on a socket that is not open. *)
Definition socketSession (t : Tabelin) : Session :=
  {| table := t; collaboration := true; collaborationMode := "websocket";
     socketOpen := false; pendingChanges := []; socketSent := [];
     posted := [] |}.

(** * Properties *)

(** ** Loading and navigation *)

Lemma loadData_busy (t : Tabelin) : isBusy t = true → loadData t = t.
Proof. intros Hb. unfold loadData. by rewrite Hb. Qed.

(** C2.  [loadData] called while [isBusy] is set returns at once: the whole
    state, with the rendered body and the list of queries sent, is what it
    was, so no second load starts. *)
Theorem loadData_while_busy_is_noop (t : Tabelin) :
  isBusy t = true →
  loadData t = t ∧
  fetches (loadData t) = fetches t ∧
  tbody (loadData t) = tbody t ∧
  isBusy (loadData t) = true.
Proof.
  intros Hb. rewrite (loadData_busy t Hb). by rewrite Hb.
Qed.

Lemma loadData_while_busy_is_noop_witness :
  let t := set_isBusy true table25 in
  isBusy t = true ∧ loadData t = t.
Proof.
  split; [reflexivity |].
  apply (loadData_while_busy_is_noop (set_isBusy true table25)).
  reflexivity.
Defined.

(** A load requested while the answer to a server query is awaited is
    dropped: one query has been sent, not two. *)
Lemma second_server_load_is_dropped (t : Tabelin) :
  isBusy t = false → serverSide (options t) = true →
  isBusy (loadData t) = true ∧
  loadData (loadData t) = loadData t ∧
  fetches (loadData (loadData t)) = fetches t ++ [buildServerParams t].
Proof.
  intros Hb Hs.
  assert (loadData t
          = loadServerData (set_loading true (set_isBusy true t))) as Hl.
  { unfold loadData. rewrite Hb. cbn. by rewrite Hs. }
  assert (isBusy (loadData t) = true) as Hb' by (by rewrite Hl).
  rewrite (loadData_busy _ Hb'). rewrite Hl. done.
Qed.

(** C8.  Navigation outside the page range changes nothing: [goToPage p]
    for [p < 1] or [p > totalPages], [nextPage] on the last page and
    [prevPage] on the first. *)
Theorem navigation_out_of_range_is_noop (t : Tabelin) (p : Z) :
  (p < 1 ∨ totalPages t < p → goToPage p t = t) ∧
  (currentPage t = totalPages t → nextPage t = t) ∧
  (currentPage t = 1 → prevPage t = t).
Proof.
  split; [| split].
  - intros Hp. unfold goToPage.
    destruct Hp as [Hp | Hp].
    + assert ((p >=? 1) = false) as -> by lia. done.
    + assert ((p <=? totalPages t) = false) as -> by lia.
      by rewrite andb_false_r.
  - intros Hc. unfold nextPage.
    assert ((currentPage t <? totalPages t) = false) as -> by lia. done.
  - intros Hc. unfold prevPage.
    assert ((currentPage t >? 1) = false) as -> by lia. done.
Qed.

(** The scenario of C8: 25 rows, 10 to a page; on page 3 of 3, [nextPage]
    changes nothing, and so do [goToPage 0] and [goToPage 4]. *)
Lemma navigation_out_of_range_is_noop_witness :
  let t := goToPage 3 table25 in
  currentPage t = 3 ∧ totalPages t = 3 ∧
  nextPage t = t ∧ goToPage 0 t = t ∧ goToPage 4 t = t ∧
  prevPage table25 = table25.
Proof.
  intros t.
  assert (currentPage t = 3) as Hc by (vm_compute; reflexivity).
  assert (totalPages t = 3) as Ht by (vm_compute; reflexivity).
  assert (currentPage table25 = 1) as H1 by (vm_compute; reflexivity).
  destruct (navigation_out_of_range_is_noop t 0) as (Hgo0 & Hnext & _).
  destruct (navigation_out_of_range_is_noop t 4) as (Hgo4 & _ & _).
  destruct (navigation_out_of_range_is_noop table25 0) as (_ & _ & Hprev).
  split; [exact Hc |]. split; [exact Ht |].
  split; [exact (Hnext (eq_trans Hc (eq_sym Ht))) |].
  split; [apply Hgo0; left; lia |].
  split; [apply Hgo4; right; rewrite Ht; lia |].
  exact (Hprev H1).
Defined.

(** ** Collaboration *)

Lemma updateCellFromCollaboration_own (rowIndex : Z) (columnField : string)
    (v : value) (sender me : user) (now : Z) (t : Tabelin) :
  collaborationUser (options t) = Some me →
  strict_eq (user_id sender) (user_id me) = true →
  updateCellFromCollaboration rowIndex columnField v (Some sender) now t = t.
Proof.
  intros Hme Hid. unfold updateCellFromCollaboration. by rewrite Hme, Hid.
Qed.

(** C4.  A [cell-change] message sent by a user whose [id] is the local
    collaboration user's is dropped: the row objects, the working data, the
    rendered body and the version history are all what they were. *)
Theorem own_cell_change_is_ignored (m : message) (sender me : user) (now : Z)
    (t : Tabelin) :
  m_type m = "cell-change" →
  m_user m = Some sender →
  collaborationUser (options t) = Some me →
  strict_eq (user_id sender) (user_id me) = true →
  handleCollaborationMessage m now t = t ∧
  rowStore (handleCollaborationMessage m now t) = rowStore t ∧
  data (options (handleCollaborationMessage m now t)) = data (options t) ∧
  tbody (handleCollaborationMessage m now t) = tbody t ∧
  cellVersions (handleCollaborationMessage m now t) = cellVersions t ∧
  arrayStore (handleCollaborationMessage m now t) = arrayStore t.
Proof.
  intros Hty Hu Hme Hid.
  assert (handleCollaborationMessage m now t = t) as ->; [| done].
  unfold handleCollaborationMessage. rewrite Hty, Hu. simpl.
  destruct (m_rowIndex m) as [rowIndex |]; [| done].
  destruct (m_columnField m) as [columnField |]; [| done].
  case_bool_decide; [done |].
  by apply updateCellFromCollaboration_own with me.
Qed.

Lemma own_cell_change_is_ignored_witness :
  handleCollaborationMessage (cellChange alice) 1000 (sharedTable 10)
  = sharedTable 10.
Proof.
  apply (own_cell_change_is_ignored (cellChange alice) alice alice 1000
           (sharedTable 10));
    vm_compute; reflexivity.
Defined.

(** The same change sent by another user is applied: the row object, the
    rendered cell and the cell's history all change. *)
Lemma foreign_cell_change_is_applied :
  let t := handleCollaborationMessage (cellChange bob) 1000 (sharedTable 10) in
  getField (rowOf t 1) "n" = VNum (Fin 99) ∧
  tbody t = [TrRow 0 0 ["1"]; TrRow 1 1 ["99"]; TrRow 2 2 ["3"]] ∧
  storedHistory 1 "n" t
  = [{| v_value := VNum (Fin 99); v_timestamp := 1000; v_user := bob |}].
Proof. vm_compute. done. Qed.

(** ** The rules engine *)






(** Through [evaluateRule] the operator and operand must sit under the
    rule's [condition]; a rule without one matches no row. *)
Lemma evaluateRule_age `{Host} (cols : list column) :
  let adult :=
    {| rule_field := "age";
       rule_condition := cond ">=" (OValue (VNum (Fin 18))) |} in
  evaluateRule cols adult {[ "age" := VNum (Fin 17) ]} = VBool false ∧
  evaluateRule cols adult {[ "age" := VNum (Fin 18) ]} = VBool true ∧
  evaluateRule cols {| rule_field := "age"; rule_condition := None |}
               {[ "age" := VNum (Fin 18) ]} = VBool false.
Proof. done. Qed.

(** ** Pagination *)

(** [ceilDiv n s] is the least [k] with [n <= k * s]. *)
Lemma ceilDiv_bounds (n : Z) (s : positive) :
  (ceilDiv n s - 1) * Z.pos s < n ≤ ceilDiv n s * Z.pos s.
Proof.
  unfold ceilDiv.
  pose proof (Z.div_mod (- n) (Z.pos s) ltac:(lia)) as Hdm.
  pose proof (Z.mod_pos_bound (- n) (Z.pos s) ltac:(lia)) as Hm.
  nia.
Qed.

Lemma ceilDiv_0 (s : positive) : ceilDiv 0 s = 0.
Proof. reflexivity. Qed.

Lemma ceilDiv_pos (n : Z) (s : positive) : 0 < n → 1 ≤ ceilDiv n s.
Proof. intros Hn. pose proof (ceilDiv_bounds n s). nia. Qed.

Lemma slice_take_drop {A : Type} (l : list A) (a b : Z) :
  0 ≤ a → a ≤ b →
  slice l a b = take (Z.to_nat (b - a)) (drop (Z.to_nat a) l).
Proof.
  intros Ha Hab. unfold slice, relIndex.
  assert ((a <? 0) = false) as -> by lia.
  assert ((b <? 0) = false) as -> by lia.
  destruct (decide (a ≤ Z.of_nat (length l))) as [Hal | Hal].
  - rewrite (Z.min_l a) by lia.
    destruct (decide (b ≤ Z.of_nat (length l))) as [Hbl | Hbl].
    + by rewrite (Z.min_l b) by lia.
    + rewrite (Z.min_r b) by lia.
      rewrite !take_ge; [done | |]; rewrite length_drop; lia.
  - rewrite !Z.min_r by lia.
    rewrite !drop_ge by lia. by rewrite !take_nil.
Qed.

Lemma omap_shownRow_imap (f : nat → loc → tr) (d : list loc) :
  (∀ i l, shownRow (f i l) = Some l) → omap shownRow (imap f d) = d.
Proof.
  revert f. induction d as [| l d IH]; intros f Hf; cbn; [done |].
  rewrite Hf. f_equal. apply IH. intros i l'. apply Hf.
Qed.

Lemma slice_nil {A : Type} (a b : Z) : slice (@nil A) a b = [].
Proof. unfold slice. by rewrite drop_nil, take_nil. Qed.

Lemma renderedRows_renderData (d : list loc) (t : Tabelin) :
  renderedRows (renderData d t) = d.
Proof.
  unfold renderData, renderedRows. case_bool_decide as Hd.
  - destruct d; done.
  - cbn [tbody set_tbody]. by apply omap_shownRow_imap.
Qed.

(** What one client-side load of a page leaves. *)
Lemma loadData_client (t : Tabelin) :
  clientPaged t →
  let t' := loadData t in
  let size := Z.pos (pageSize (options t)) in
  options t' = options t ∧
  currentPage t' = currentPage t ∧
  totalRecords t' = len (data (options t)) ∧
  totalPages t' = ceilDiv (len (data (options t))) (pageSize (options t)) ∧
  isBusy t' = false ∧
  renderedRows t'
  = slice (data (options t)) ((currentPage t - 1) * size)
          ((currentPage t - 1) * size + size).
Proof.
  intros (Hb & Hs & Hi & Hl).
  unfold loadData. rewrite Hb. cbn. rewrite Hs.
  unfold loadClientData. cbn. rewrite Hi, Hl. cbn.
  set (d := slice _ _ _).
  pose proof (renderedRows_renderData d (set_loading true (set_isBusy true t))) as Hr.
  unfold renderData in *. case_bool_decide; cbn in *; done.
Qed.

(** After a client-side load, [totalPages] is the ceiling of the row count
    over the page size. *)
Lemma loadData_totalPages (t : Tabelin) :
  clientPaged t →
  totalPages (loadData t)
  = ceilDiv (len (data (options t))) (pageSize (options t)).
Proof. intros Hc. apply (loadData_client t Hc). Qed.

(** The rows that [goToPage p] renders for a page in range. *)
Lemma goToPage_rows (t : Tabelin) (p : Z) :
  clientPaged t → 1 ≤ p ≤ totalPages t →
  let size := Pos.to_nat (pageSize (options t)) in
  renderedRows (goToPage p t)
  = take size (drop ((Z.to_nat p - 1) * size) (data (options t))).
Proof.
  intros Hc Hp size. unfold goToPage.
  assert (((p >=? 1) && (p <=? totalPages t) && negb (isBusy t)) = true) as ->.
  { destruct Hc as (-> & _). cbn. lia. }
  destruct (loadData_client (set_currentPage p t)) as (_ & _ & _ & _ & _ & Hr).
  { exact Hc. }
  rewrite Hr. cbn [currentPage set_currentPage options data pageSize].
  rewrite slice_take_drop by nia.
  f_equal; [unfold size; lia |]. f_equal.
  rewrite Z2Nat.inj_mul by lia. unfold size. lia.
Qed.

Lemma chunks_concat {A : Type} (s k : nat) (l : list A) :
  (length l ≤ k * s)%nat →
  concat (map (λ i, take s (drop (i * s) l)) (seq 0 k)) = l.
Proof.
  revert l. induction k as [| k IH]; intros l Hl.
  - destruct l; [done | cbn in Hl; lia].
  - cbn [seq map concat]. rewrite <- seq_shift, map_map.
    trans (take s l ++ drop s l); [| apply take_drop].
    f_equal.
    etrans; [| apply (IH (drop s l)); rewrite length_drop; lia].
    f_equal. apply map_ext. intros i.
    by rewrite drop_drop.
Qed.

(** The pages of a loaded client-side table, put end to end in page order,
    are the working data: every row is shown on exactly one page. *)
Theorem pages_cover_data (t : Tabelin) :
  clientPaged t →
  totalPages t = ceilDiv (len (data (options t))) (pageSize (options t)) →
  concat ((λ p, renderedRows (goToPage p t)) <$> pageNumbers (totalPages t))
  = data (options t).
Proof.
  intros Hc Ht.
  pose proof (ceilDiv_bounds (len (data (options t))) (pageSize (options t))) as Hb.
  rewrite <- Ht in Hb. unfold len in Hb.
  assert (0 ≤ totalPages t) as Hpos by nia.
  unfold pageNumbers. rewrite <- list_fmap_compose.
  etrans; [| apply (chunks_concat (Pos.to_nat (pageSize (options t)))
                                  (Z.to_nat (totalPages t))); nia].
  f_equal. apply list_fmap_ext. intros i j Hj.
  apply lookup_seq in Hj as [-> Hlt]. cbn.
  rewrite goToPage_rows by (done || lia).
  by replace (Z.to_nat (Z.of_nat i + 1) - 1)%nat with i by lia.
Qed.

Lemma pages_cover_data_witness :
  concat ((λ p, renderedRows (goToPage p table25)) <$> [1; 2; 3]) = seq 0 25.
Proof.
  apply (pages_cover_data table25); vm_compute; done.
Defined.

(** The scenario of C1 on the client: 25 rows, 10 to a page, make 3 pages,
    and page 3 shows the rows numbered 21 to 25. *)
Lemma table25_pages :
  totalPages table25 = 3 ∧
  renderedRows (goToPage 3 table25) = [20; 21; 22; 23; 24]%nat ∧
  ((λ l, getField (rowOf table25 l) "n") <$> renderedRows (goToPage 3 table25))
  = [VNum (Fin 21); VNum (Fin 22); VNum (Fin 23); VNum (Fin 24); VNum (Fin 25)].
Proof. vm_compute. done. Qed.

(** C1, at the empty dataset.  A client-side load of no rows sets
    [totalPages] to 0, not 1: [Math.ceil(0 / pageSize)] is stored as it
    is, the current page stays where it was and the body shows the
    no-data row. *)
Theorem empty_data_gives_zero_pages (t : Tabelin) :
  clientPaged t →
  data (options t) = [] →
  totalPages (loadData t) = 0 ∧
  currentPage (loadData t) = currentPage t ∧
  tbody (loadData t) = [TrNote "no-data-message" "No data available"].
Proof.
  intros Hc Hd.
  destruct (loadData_client t Hc) as (_ & Hcp & _ & Htp & _ & _).
  rewrite Htp, Hcp, Hd. split_and!; [done | done |].
  destruct Hc as (Hb & Hs & Hi & Hl).
  unfold loadData. rewrite Hb. cbn. rewrite Hs.
  unfold loadClientData. cbn. rewrite Hi, Hl, Hd. cbn.
  by rewrite slice_nil.
Qed.

(** On the empty table the page indicator reads "Page 1 of 0" and the next
    button stays enabled. *)
Lemma empty_data_gives_zero_pages_witness :
  totalPages table0 = 0 ∧ currentPage table0 = 1 ∧
  pageInfo table0 = "Page 1 of 0" ∧ nextDisabled table0 = false.
Proof.
  assert (clientPaged table0) as Hc by (vm_compute; done).
  assert (data (options table0) = []) as Hd by (vm_compute; done).
  assert (loadData table0 = table0) as He by (vm_compute; done).
  destruct (empty_data_gives_zero_pages table0 Hc Hd) as (Ht & Hp & _).
  rewrite He in Ht, Hp.
  split; [exact Ht |]. split; [vm_compute; done |]. vm_compute. done.
Defined.

(** The server-side path keeps [totalPages] at 1 for an empty result: a
    reply announcing no records yields one page. *)
Lemma server_empty_has_one_page (t : Tabelin) :
  infiniteScroll (options t) = false → lazyLoad (options t) = false →
  totalPages
    (onServerData
       {| resp_rows := Some []; resp_totalPages := None;
          resp_totalRecords := Some 0; resp_recordsTotal := None;
          resp_recordsFiltered := None |} t) = 1.
Proof.
  intros Hi Hl. unfold onServerData. cbn. rewrite Hi, Hl. cbn. done.
Qed.

(** ** Version history *)

Lemma addToVersionHistory_off (rowIndex : Z) (f : string) (v : value)
    (u : option user) (now : Z) (t : Tabelin) :
  versionHistory (options t) = false →
  addToVersionHistory rowIndex f v u now t = t.
Proof. intros Hv. unfold addToVersionHistory. by rewrite Hv. Qed.

Lemma addToVersionHistory_options (rowIndex : Z) (f : string) (v : value)
    (u : option user) (now : Z) (t : Tabelin) :
  options (addToVersionHistory rowIndex f v u now t) = options t.
Proof.
  unfold addToVersionHistory.
  destruct (versionHistory (options t)); [| done]. cbn.
  destruct (cellVersions t !! cellKey rowIndex f) as [ref |] eqn:Hk.
  - by rewrite Hk.
  - cbn. by rewrite lookup_insert_eq.
Qed.

(** One call, seen through the stored histories: the addressed cell gets
    the entry appended and the length check applied, every other cell is
    left alone. *)
Lemma addToVersionHistory_history (e : edit) (t : Tabelin) :
  versionHistory (options t) = true → historyWf t →
  historyWf (recordEdit t e) ∧
  ∀ key,
    historyAt key (recordEdit t e)
    = if bool_decide (cellKey (e_row e) (e_field e) = key) then
        bounded (maxVersions (options t)) (historyAt key t ++ [entryOf e])
      else historyAt key t.
Proof.
  intros Hv [Hlt Hinj].
  unfold recordEdit, addToVersionHistory. rewrite Hv. cbn.
  set (k := cellKey (e_row e) (e_field e)).
  destruct (cellVersions t !! k) as [ref |] eqn:Hk.
  - rewrite Hk. split.
    + split; cbn.
      * intros key ref' Href. rewrite length_insert. by eapply Hlt.
      * exact Hinj.
    + intros key. unfold historyAt. cbn.
      case_bool_decide as Hkey.
      * subst key. rewrite Hk.
        rewrite list_lookup_insert_eq by (by eapply Hlt). done.
      * destruct (cellVersions t !! key) as [ref' |] eqn:Hk'; [| done].
        rewrite list_lookup_insert_ne; [done |].
        intros ->. apply Hkey. by eapply Hinj.
  - cbn. rewrite lookup_insert_eq.
    rewrite lookup_app_r, Nat.sub_diag by lia. cbn.
    split.
    + split; cbn.
      * intros key ref'. rewrite length_insert, length_app. cbn.
        destruct (decide (k = key)) as [<- | Hne].
        -- rewrite lookup_insert_eq. intros [= <-]. lia.
        -- rewrite lookup_insert_ne by done. intros Href%Hlt. lia.
      * intros k1 k2 ref'.
        destruct (decide (k = k1)) as [<- | Hne1];
          destruct (decide (k = k2)) as [<- | Hne2]; try done.
        -- rewrite lookup_insert_eq, lookup_insert_ne by done.
           intros [= <-] Href%Hlt. lia.
        -- rewrite lookup_insert_eq, lookup_insert_ne by done.
           intros Href%Hlt [= <-]. lia.
        -- rewrite !lookup_insert_ne by done. apply Hinj.
    + intros key. unfold historyAt. cbn.
      case_bool_decide as Hkey.
      * subst key. rewrite lookup_insert_eq, Hk.
        rewrite list_lookup_insert_eq by (rewrite length_app; cbn; lia). done.
      * rewrite lookup_insert_ne by done.
        destruct (cellVersions t !! key) as [ref' |] eqn:Hk'; [| done].
        pose proof (Hlt _ _ Hk') as Hr.
        rewrite list_lookup_insert_ne by lia.
        by rewrite lookup_app_l by lia.
Qed.

Lemma length_lastN {A : Type} (n : nat) (l : list A) :
  length (lastN n l) = (length l `min` n)%nat.
Proof. unfold lastN. rewrite length_drop. lia. Qed.

(** Appending to the last [limit] entries and applying the length check
    gives the last [limit] entries again. *)
Lemma bounded_lastN (limit : nat) (h : list version) (x : version) :
  bounded limit (lastN limit h ++ [x]) = lastN limit (h ++ [x]).
Proof.
  unfold bounded, len.
  rewrite length_app, length_lastN. cbn [length].
  unfold lastN. rewrite length_app. cbn [length].
  destruct (Z.gtb_spec (Z.of_nat (length h `min` limit + 1)) (Z.of_nat limit))
    as [Hgt | Hle].
  - replace (length h + 1 - limit)%nat with (length h - limit + 1)%nat by lia.
    rewrite <- drop_drop, drop_app_le by lia.
    by destruct (drop (length h - limit) h).
  - replace (length h - limit)%nat with 0%nat by lia.
    replace (length h + 1 - limit)%nat with 0%nat by lia.
    done.
Qed.

Lemma editsOf_snoc (key : string) (es : list edit) (e : edit) :
  editsOf key (es ++ [e])
  = editsOf key es
    ++ (if bool_decide (cellKey (e_row e) (e_field e) = key) then [e] else []).
Proof. unfold editsOf. rewrite List.filter_app. cbn. by case_bool_decide. Qed.

(** Any run of calls, seen through one cell: its stored history is the
    last [maxVersions] of the entries appended for it, oldest first. *)
Lemma recordEdits_history (es : list edit) (t : Tabelin) (key : string) :
  versionHistory (options t) = true → historyWf t →
  historyAt key t = [] →
  let t' := foldl recordEdit t es in
  options t' = options t ∧ historyWf t' ∧
  historyAt key t' = lastN (maxVersions (options t)) (entryOf <$> editsOf key es).
Proof.
  intros Hv Hwf H0. induction es as [| e es IH] using rev_ind.
  - cbn. by rewrite H0.
  - cbn zeta in *. rewrite foldl_app. cbn [foldl].
    destruct IH as (Ho & Hwf' & Hh).
    destruct (addToVersionHistory_history e (foldl recordEdit t es)) as [Hwf'' Hstep];
      [by rewrite Ho | done |].
    split_and!; [| done |].
    + unfold recordEdit. by rewrite addToVersionHistory_options.
    + rewrite Hstep, Ho, Hh, editsOf_snoc, fmap_app.
      case_bool_decide.
      * by apply bounded_lastN.
      * by rewrite app_nil_r.
Qed.

(** A table on which no version has been recorded. *)
Lemma historyWf_fresh (t : Tabelin) : cellVersions t = ∅ → historyWf t.
Proof. intros He. split; intros *; rewrite He, lookup_empty; done. Qed.

(** C3, as the code has it.  With version history enabled: once a run of
    [addToVersionHistory] calls has addressed [maxVersions + k] times a
    cell that had no history, whatever calls for other cells came in
    between, the stored history of the cell has exactly [maxVersions]
    entries, which are the entries of its last [maxVersions] calls in the
    order they were made; the first [k] have been dropped, oldest first. *)
Theorem version_history_keeps_latest (es : list edit) (t : Tabelin)
    (rowIndex : Z) (columnField : string) (k : nat) :
  versionHistory (options t) = true → historyWf t →
  storedHistory rowIndex columnField t = [] →
  let mine := editsOf (cellKey rowIndex columnField) es in
  length mine = (maxVersions (options t) + k)%nat →
  let t' := foldl recordEdit t es in
  length (storedHistory rowIndex columnField t') = maxVersions (options t) ∧
  storedHistory rowIndex columnField t' = entryOf <$> drop k mine.
Proof.
  intros Hv Hwf H0 mine Hlen t'.
  destruct (recordEdits_history es t (cellKey rowIndex columnField))
    as (_ & _ & Hh); [done .. |].
  unfold storedHistory. fold t' in Hh. rewrite Hh. fold mine.
  unfold lastN. rewrite length_fmap, Hlen, <- fmap_drop.
  replace (maxVersions (options t) + k - maxVersions (options t))%nat with k by lia.
  split; [| done].
  rewrite length_fmap, length_drop, Hlen. lia.
Qed.

(** The scenario of C3: with [maxVersions = 2], the versions v1, v2, v3
    recorded at times 1, 2, 3 for one cell, among an edit of another cell,
    leave the history [v2, v3]. *)
Lemma version_history_keeps_latest_witness :
  storedHistory 0 "n" (foldl recordEdit (sharedTable 2) threeVersions)
  = [{| v_value := VStr "v2"; v_timestamp := 2; v_user := alice |};
     {| v_value := VStr "v3"; v_timestamp := 3; v_user := alice |}].
Proof.
  destruct (version_history_keeps_latest threeVersions (sharedTable 2) 0 "n" 1)
    as [_ Hh].
  - vm_compute. done.
  - apply historyWf_fresh. vm_compute. done.
  - vm_compute. done.
  - vm_compute. done.
  - rewrite Hh. vm_compute. done.
Defined.

(** With the [versionHistory] option off, as it is by default, the calls
    record nothing: after 11 calls for a cell under [maxVersions = 10] no
    history is stored for it. *)
Lemma version_history_off_stores_nothing :
  let t := foldl recordEdit table25 (elevenVersions) in
  maxVersions (options t) = 10%nat ∧
  length (editsOf (cellKey 0 "n") elevenVersions) = 11%nat ∧
  storedHistory 0 "n" t = [] ∧ cellVersions t = ∅.
Proof. vm_compute. done. Qed.

(** ** The sorts of the host *)

Lemma Sorted_weaken {A : Type} (R R' : A → A → Prop) (l : list A) :
  (∀ a b, R a b → R' a b) → Sorted R l → Sorted R' l.
Proof.
  intros HR. induction 1 as [| x l Hs IH Hhd]; constructor; [done |].
  destruct Hhd; constructor. by apply HR.
Qed.

Section Sorts.
Context {A : Type} (cmp : A → A → number).

Lemma insertStable_perm (x : A) (l : list A) : insertStable cmp x l ≡ₚ x :: l.
Proof.
  induction l as [| y l IH]; cbn; [done |].
  destruct (0 <? sortSign (cmp x y)); [| done].
  rewrite IH. apply Permutation_swap.
Qed.

Lemma stableSort_perm (l : list A) : stableSort A cmp l ≡ₚ l.
Proof.
  induction l as [| x l IH]; cbn; [done |].
  fold (stableSort A cmp l). by rewrite insertStable_perm, IH.
Qed.

Lemma elem_of_stableSort (a : A) (l : list A) : a ∈ stableSort A cmp l ↔ a ∈ l.
Proof. by rewrite stableSort_perm. Qed.


(** An element that the comparator puts after every element of [l] ends
    up last. *)
Lemma insertStable_last (x : A) (l : list A) :
  Forall (λ y, 0 < sortSign (cmp x y)) l → insertStable cmp x l = l ++ [x].
Proof.
  induction 1 as [| y l Hy _ IH]; cbn; [done |].
  assert ((0 <? sortSign (cmp x y)) = true) as -> by lia. by rewrite IH.
Qed.

Context (key : A → Z).

Lemma ranked_cons (x : A) (l : list A) :
  ranked cmp key (x :: l) → rankedAgainst cmp key x l ∧ ranked cmp key l.
Proof.
  intros Hr. split.
  - apply Forall_forall. intros y Hy. apply Hr; set_solver.
  - intros a b Ha Hb. apply Hr; set_solver.
Qed.


Lemma insertStable_HdRel (x y : A) (l : list A) :
  key y ≤ key x → HdRel (λ a b, key a ≤ key b) y l →
  HdRel (λ a b, key a ≤ key b) y (insertStable cmp x l).
Proof.
  intros Hyx Hhd. destruct Hhd as [| z l Hyz]; cbn; [by constructor |].
  destruct (0 <? sortSign (cmp x z)); by constructor.
Qed.

Lemma insertStable_sorted (x : A) (l : list A) :
  rankedAgainst cmp key x l →
  Sorted (λ a b, key a ≤ key b) l →
  Sorted (λ a b, key a ≤ key b) (insertStable cmp x l).
Proof.
  intros Hr Hs. induction Hs as [| y l Hs IH Hhd]; cbn.
  - by repeat constructor.
  - apply Forall_cons in Hr as [Hxy Hr].
    destruct (0 <? sortSign (cmp x y)) eqn:Hc.
    + constructor; [by apply IH |]. apply insertStable_HdRel; [lia | done].
    + constructor; [by constructor |]. constructor. lia.
Qed.

(** The result is ordered by rank. *)
Lemma stableSort_sorted (l : list A) :
  ranked cmp key l → Sorted (λ a b, key a ≤ key b) (stableSort A cmp l).
Proof.
  induction l as [| x l IH]; intros Hr; cbn; [constructor |].
  fold (stableSort A cmp l). apply ranked_cons in Hr as [Hx Hr].
  apply insertStable_sorted; [| by apply IH].
  unfold rankedAgainst in *. rewrite Forall_forall in *.
  intros y Hy. apply Hx. by apply elem_of_stableSort.
Qed.

Lemma insertStable_filter (k : Z) (x : A) (l : list A) :
  rankedAgainst cmp key x l →
  List.filter (λ a, bool_decide (key a = k)) (insertStable cmp x l)
  = List.filter (λ a, bool_decide (key a = k)) (x :: l).
Proof.
  induction 1 as [| y l Hxy _ IH]; [done |].
  cbn [insertStable]. destruct (0 <? sortSign (cmp x y)) eqn:Hc; [| done].
  cbn [List.filter] in *. rewrite IH.
  repeat case_bool_decide; try done. lia.
Qed.

(** Elements of equal rank keep their relative order. *)
Lemma stableSort_stable (k : Z) (l : list A) :
  ranked cmp key l →
  List.filter (λ a, bool_decide (key a = k)) (stableSort A cmp l)
  = List.filter (λ a, bool_decide (key a = k)) l.
Proof.
  induction l as [| x l IH]; intros Hr; [done |].
  cbn [stableSort foldr]. fold (stableSort A cmp l).
  apply ranked_cons in Hr as [Hx Hr].
  rewrite insertStable_filter.
  - cbn [List.filter]. by rewrite IH.
  - unfold rankedAgainst in *. rewrite Forall_forall in *.
    intros y Hy. apply Hx. by apply elem_of_stableSort.
Qed.


(** The older sort also orders by rank and keeps every element. *)
Lemma insertPastTies_perm (x : A) (l : list A) : insertPastTies cmp x l ≡ₚ x :: l.
Proof.
  induction l as [| y l IH]; cbn; [done |].
  destruct (0 <=? sortSign (cmp x y)); [| done].
  rewrite IH. apply Permutation_swap.
Qed.

Lemma legacySort_perm (l : list A) : legacySort A cmp l ≡ₚ l.
Proof.
  induction l as [| x l IH]; cbn; [done |].
  fold (legacySort A cmp l). by rewrite insertPastTies_perm, IH.
Qed.

Lemma insertPastTies_sorted (x : A) (l : list A) :
  rankedAgainst cmp key x l →
  Sorted (λ a b, key a ≤ key b) l →
  Sorted (λ a b, key a ≤ key b) (insertPastTies cmp x l).
Proof.
  intros Hr Hs. induction Hs as [| y l Hs IH Hhd]; cbn.
  - by repeat constructor.
  - apply Forall_cons in Hr as [Hxy Hr].
    destruct (0 <=? sortSign (cmp x y)) eqn:Hc.
    + constructor; [by apply IH |].
      assert (key y ≤ key x) as Hyx by lia.
      destruct Hhd as [| z l Hyz]; cbn; [by constructor |].
      destruct (0 <=? sortSign (cmp x z)); by constructor.
    + constructor; [by constructor |]. constructor. lia.
Qed.

Lemma legacySort_sorted (l : list A) :
  ranked cmp key l → Sorted (λ a b, key a ≤ key b) (legacySort A cmp l).
Proof.
  induction l as [| x l IH]; intros Hr; cbn; [constructor |].
  fold (legacySort A cmp l). apply ranked_cons in Hr as [Hx Hr].
  apply insertPastTies_sorted; [| by apply IH].
  unfold rankedAgainst in *. rewrite Forall_forall in *.
  intros y Hy. apply Hx. by rewrite <- (legacySort_perm l).
Qed.

End Sorts.

(** ** Showing the version history *)

Lemma newestFirst_ranked (h : list version) :
  ranked newestFirst (λ v, - v_timestamp v) h.
Proof. intros a b _ _. unfold newestFirst. cbn. f_equal. lia. Qed.

(** The array that [showVersionHistory] sorts is the stored one: after the
    call the cell's stored history is the sorted array. *)
Lemma showVersionHistory_stored `{Host} (rowIndex : Z) (columnField : string)
    (t : Tabelin) :
  stableHost H → historyWf t →
  storedHistory rowIndex columnField t ≠ [] →
  storedHistory rowIndex columnField (showVersionHistory rowIndex columnField t)
  = stableSort version newestFirst (storedHistory rowIndex columnField t).
Proof.
  intros Hst [Hlt _].
  unfold storedHistory, historyAt, showVersionHistory, getCellVersionHistory.
  destruct (cellVersions t !! cellKey rowIndex columnField) as [ref |] eqn:Hk;
    [| done].
  intros Hne. case_bool_decide as Hlen.
  { by destruct (default [] (arrayStore t !! ref)). }
  cbn. rewrite Hk.
  rewrite list_lookup_insert_eq by (by eapply Hlt). cbn.
  apply (Hst _ _ _ _ (newestFirst_ranked _)).
Qed.

Lemma stableSort_increasing (h : list version) :
  increasing h → stableSort version newestFirst h = reverse h.
Proof.
  induction 1 as [| x h Hs IH Hx]; [done |].
  cbn [stableSort foldr]. fold (stableSort version newestFirst h).
  rewrite IH, reverse_cons. apply insertStable_last.
  apply Forall_reverse. eapply Forall_impl; [exact Hx |].
  intros y Hy. unfold newestFirst. cbn in *. rewrite Z.sgn_pos; lia.
Qed.

Lemma reverse_increasing_ne (h : list version) :
  increasing h → (2 ≤ length h)%nat → reverse h ≠ h.
Proof.
  intros Hs Hlen Heq.
  destruct Hs as [| x h Hs Hx]; [cbn in Hlen; lia |].
  destruct h as [| y h] using rev_ind; [cbn in Hlen; lia |].
  rewrite reverse_cons, reverse_app in Heq. cbn in Heq.
  injection Heq as -> _.
  apply Forall_app in Hx as [_ Hx]. rewrite Forall_singleton in Hx.
  by apply Z.lt_irrefl in Hx.
Qed.

(** C10, as the code has it.  [showVersionHistory] sorts the stored array
    itself.  After it has run for a cell that has a history, the stored
    history is ordered newest first, versions with one timestamp staying
    in the order of their recording.  When the timestamps grow strictly,
    it is the recorded sequence reversed, and with two or more versions it
    is no longer the recorded sequence. *)
Theorem showVersionHistory_reorders_stored `{Host} (rowIndex : Z)
    (columnField : string) (t : Tabelin) :
  stableHost H → historyWf t →
  let h := storedHistory rowIndex columnField t in
  let h' :=
    storedHistory rowIndex columnField (showVersionHistory rowIndex columnField t) in
  h ≠ [] →
  h' ≡ₚ h ∧
  Sorted (λ a b, v_timestamp b ≤ v_timestamp a) h' ∧
  (∀ ts, List.filter (λ v, bool_decide (v_timestamp v = ts)) h'
         = List.filter (λ v, bool_decide (v_timestamp v = ts)) h) ∧
  (increasing h → h' = reverse h) ∧
  (increasing h → (2 ≤ length h)%nat → h' ≠ h).
Proof.
  intros Hst Hwf h h' Hne.
  assert (h' = stableSort version newestFirst h) as ->
    by by apply showVersionHistory_stored.
  pose proof (newestFirst_ranked h) as Hr.
  split_and!.
  - apply stableSort_perm.
  - eapply Sorted_weaken; [| by apply (stableSort_sorted _ _ _ Hr)].
    cbn. intros a b. lia.
  - intros ts.
    pose proof (stableSort_stable newestFirst _ (- ts) h Hr) as Hf.
    erewrite (List.filter_ext _ (λ v, bool_decide (- v_timestamp v = - ts))),
      Hf; [apply List.filter_ext |]; intros v; apply bool_decide_ext; lia.
  - apply stableSort_increasing.
  - intros Hi Hl. rewrite stableSort_increasing by done.
    by apply reverse_increasing_ne.
Qed.

Lemma stableHost_numericHost : stableHost numericHost.
Proof. by intros A cmp key l _. Qed.

(** After the three versions v1, v2, v3, showing the history leaves the
    stored array as [v3, v2]. *)
Lemma showVersionHistory_reorders_stored_witness :
  let t := foldl recordEdit (sharedTable 2) threeVersions in
  storedHistory 0 "n" (showVersionHistory (H := numericHost) 0 "n" t)
  = reverse (storedHistory 0 "n" t).
Proof.
  intros t.
  destruct (showVersionHistory_reorders_stored (H := numericHost) 0 "n" t)
    as (_ & _ & _ & Hrev & _).
  - apply stableHost_numericHost.
  - unfold t. apply recordEdits_history with (key := "");
      [vm_compute; done | apply historyWf_fresh; vm_compute; done | vm_compute; done].
  - vm_compute. done.
  - apply Hrev. vm_compute. repeat constructor; lia.
Defined.

(** A history of one version, and one whose versions were recorded within
    the same millisecond, are stored after [showVersionHistory] exactly as
    they were recorded. *)
Lemma showVersionHistory_keeps_recorded_order :
  let one := recordEdit (sharedTable 10) (editAt 0 "v1" 5) in
  let two := foldl recordEdit (sharedTable 10) twoAtOnce in
  storedHistory 0 "n" one = [entryOf (editAt 0 "v1" 5)] ∧
  storedHistory 0 "n" (showVersionHistory (H := numericHost) 0 "n" one)
  = storedHistory 0 "n" one ∧
  storedHistory 0 "n" two = entryOf <$> twoAtOnce ∧
  storedHistory 0 "n" (showVersionHistory (H := numericHost) 0 "n" two)
  = storedHistory 0 "n" two.
Proof. vm_compute. done. Qed.

(** What the next recording does once the array has been sorted: under
    [maxVersions = 2], after v1 and v2 the dialog is shown, then v3 is
    recorded; the length check removes the first element of the array,
    which is now v2, and the stored history is [v1, v3]. *)
Lemma eviction_after_show_drops_newest :
  let t0 := foldl recordEdit (sharedTable 2) [editAt 0 "v1" 1; editAt 0 "v2" 2] in
  let t1 := showVersionHistory (H := numericHost) 0 "n" t0 in
  let t2 := recordEdit t1 (editAt 0 "v3" 3) in
  storedHistory 0 "n" t2
  = [entryOf (editAt 0 "v1" 1); entryOf (editAt 0 "v3" 3)].
Proof. vm_compute. done. Qed.

(** ** Searching *)




(** A load leaves the data, the restore point, the row objects and the
    sort settings alone. *)
Lemma loadData_frame (t : Tabelin) :
  options (loadData t) = options t ∧
  originalData (loadData t) = originalData t ∧
  rowStore (loadData t) = rowStore t ∧
  sortField (loadData t) = sortField t ∧
  sortDirection (loadData t) = sortDirection t.
Proof.
  unfold loadData, loadServerData, loadClientData, renderData, appendData,
    updatePaginationInfo.
  repeat (case_bool_decide || case_match); cbn; done.
Qed.

(** The working data that [search] installs. *)
Lemma search_data (query : string) (t : Tabelin) :
  data (options (search query t))
  = if bool_decide (trim query = "") then originalData t
    else List.filter
           (λ l, rowMatches (columns (options t)) (toLowerCase query) (rowOf t l))
           (originalData t).
Proof.
  unfold search.
  assert (bool_decide (query = "") || bool_decide (trim query = "")
          = bool_decide (trim query = "")) as ->.
  { case_bool_decide as Hq; [| done]. by rewrite Hq. }
  repeat case_match;
    match goal with
    | |- data (options (loadData ?u)) = _ =>
        destruct (loadData_frame u) as (-> & _)
    end; done.
Qed.

Lemma search_frame (query : string) (t : Tabelin) :
  originalData (search query t) = originalData t ∧
  rowStore (search query t) = rowStore t ∧
  columns (options (search query t)) = columns (options t).
Proof.
  unfold search.
  repeat case_match;
    match goal with
    | |- context [loadData ?u] =>
        destruct (loadData_frame u) as (-> & -> & -> & _)
    end; done.
Qed.




(** ** The comparator of the sort *)











(** ** Sorting the working data *)









(** [sortBy] takes no direction: a second call for the same field sorts
    the other way round. *)
Lemma sortBy_twice_toggles :
  let once := sortBy (H := numericHost) "n" tiedTable in
  let twice := sortBy (H := numericHost) "n" once in
  sortDirection once = Asc ∧ data (options once) = [2; 0; 1]%nat ∧
  sortDirection twice = Desc ∧ data (options twice) = [0; 1; 2]%nat.
Proof. vm_compute. done. Qed.

(** * Further properties *)

(** ** What a load leaves alone *)

Lemma loadData_keeps (t : Tabelin) :
  cellVersions (loadData t) = cellVersions t ∧
  arrayStore (loadData t) = arrayStore t ∧
  sortedHeader (loadData t) = sortedHeader t ∧
  searchTerm (loadData t) = searchTerm t ∧
  dialogs (loadData t) = dialogs t ∧
  alerts (loadData t) = alerts t.
Proof.
  unfold loadData. destruct (isBusy t); [done |]. cbn.
  destruct (serverSide (options t)); [done |].
  unfold loadClientData. cbn.
  destruct (infiniteScroll (options t) || lazyLoad (options t)).
  - destruct (bool_decide (loadedRows t = 0)); [| done].
    unfold renderData. by case_bool_decide.
  - unfold renderData. by case_bool_decide.
Qed.

(** ** The paged view *)

Lemma loadData_settles (u : Tabelin) :
  clientPaged u → 1 ≤ currentPage u → settled (loadData u).
Proof.
  intros Hc Hp.
  destruct (loadData_client u Hc) as (Ho & Hcp & Htr & Htp & Hb & Hr).
  destruct Hc as (_ & Hs & Hi & Hl).
  unfold settled, clientPaged, pageSlice. rewrite Ho, Hcp, Hb, Hs, Hi, Hl.
  done.
Qed.

Lemma sortBy_cases `{Host} (fld : string) (t : Tabelin) :
  serverSide (options t) = false →
  infiniteScroll (options t) = false → lazyLoad (options t) = false →
  sortBy fld t = t ∨
  ∃ u, sortBy fld t = loadData u ∧ currentPage u = 1 ∧ isBusy u = isBusy t ∧
       serverSide (options u) = false ∧ infiniteScroll (options u) = false ∧
       lazyLoad (options u) = false.
Proof.
  intros Hs Hi Hl. unfold sortBy.
  destruct (negb _); [by left |]. right.
  case_bool_decide; cbn; rewrite Hs; cbn; rewrite Hi, Hl; cbn;
    eexists; (split; [reflexivity |]); cbn; done.
Qed.

Lemma search_cases (query : string) (t : Tabelin) :
  infiniteScroll (options t) = false → lazyLoad (options t) = false →
  ∃ u, search query t = loadData u ∧ currentPage u = 1 ∧ isBusy u = isBusy t ∧
       serverSide (options u) = serverSide (options t) ∧
       infiniteScroll (options u) = false ∧ lazyLoad (options u) = false.
Proof.
  intros Hi Hl. unfold search.
  destruct (bool_decide (query = "") || bool_decide (trim query = ""));
    cbn; rewrite Hi, Hl; cbn;
    eexists; (split; [reflexivity |]); cbn; done.
Qed.

(** X1.  A client-side paged table at rest stays at rest under every
    operation of the view: after [nextPage], [prevPage], [goToPage],
    [refresh], [search] and [sortBy] the busy flag is clear again, the
    current page is at least 1, [totalPages] and [totalRecords] are those of
    the working data and the body shows exactly the slice of the current
    page. *)
Theorem paged_view_stays_settled `{Host} (t : Tabelin) :
  settled t →
  settled (nextPage t) ∧ settled (prevPage t) ∧
  (∀ p, settled (goToPage p t)) ∧ settled (refresh t) ∧
  (∀ query, settled (search query t)) ∧
  (∀ fld, settled (sortBy fld t)).
Proof.
  intros Hst. pose proof Hst as (Hc & Hp & _).
  pose proof Hc as (Hb & Hs & Hi & Hl).
  split_and!.
  - unfold nextPage. case_match; [| done].
    apply loadData_settles; [done | cbn; lia].
  - unfold prevPage. case_match eqn:Hg; [| done].
    apply loadData_settles; [done | cbn; lia].
  - intros p. unfold goToPage. case_match eqn:Hg; [| done].
    apply loadData_settles; [done | cbn; lia].
  - unfold refresh. rewrite Hi, Hl. cbn.
    apply loadData_settles; [done | cbn; lia].
  - intros query.
    destruct (search_cases query t Hi Hl) as (u & -> & Hcp & Hbu & Hsu & Hiu & Hlu).
    apply loadData_settles; [| lia]. unfold clientPaged. by rewrite Hbu, Hsu.
  - intros fld.
    destruct (sortBy_cases fld t Hs Hi Hl)
      as [-> | (u & -> & Hcp & Hbu & Hsu & Hiu & Hlu)]; [done |].
    apply loadData_settles; [| lia]. unfold clientPaged. by rewrite Hbu.
Qed.

Lemma construct_settled (o : Options) (store : gmap loc row) :
  serverSide o = false → infiniteScroll o = false → lazyLoad o = false →
  settled (construct o store).
Proof.
  intros Hs Hi Hl. unfold construct. apply loadData_settles; [| done].
  by unfold clientPaged.
Qed.

Lemma settled_table25 : settled table25.
Proof. by apply construct_settled. Qed.

(** From the table of 25 rows: the page after the first one, and the table
    sorted by [n], show the page they are on. *)
Lemma paged_view_stays_settled_witness :
  settled table25 ∧ settled (nextPage table25) ∧
  settled (sortBy (H := numericHost) "n" table25).
Proof.
  pose proof settled_table25 as Hs.
  destruct (paged_view_stays_settled (H := numericHost) table25 Hs)
    as (Hn & _ & _ & _ & _ & Hsort).
  split_and!; [exact Hs | exact Hn | exact (Hsort "n")].
Defined.

(** ** What the view leaves alone *)

Lemma sameRecords_loadData (u : Tabelin) :
  sameRecords u (loadData u) ∧ options (loadData u) = options u.
Proof.
  destruct (loadData_frame u) as (Ho & Hd & Hr & _).
  destruct (loadData_keeps u) as (Hc & Ha & _).
  by unfold sameRecords.
Qed.

Lemma sameRecords_load (t u : Tabelin) :
  sameRecords t u → sameRecords t (loadData u).
Proof.
  destruct (sameRecords_loadData u) as ((H1 & H2 & H3 & H4) & _).
  intros (G1 & G2 & G3 & G4). unfold sameRecords.
  by rewrite H1, H2, H3, H4.
Qed.

Lemma sameRecords_refl (t : Tabelin) : sameRecords t t.
Proof. by unfold sameRecords. Qed.

Lemma sortBy_keeps `{Host} (fld : string) (t : Tabelin) :
  sameRecords t (sortBy fld t) ∧
  columns (options (sortBy fld t)) = columns (options t) ∧
  searchTerm (sortBy fld t) = searchTerm t.
Proof.
  unfold sortBy. destruct (negb _); [by split; [apply sameRecords_refl |] |].
  set (t1 := if bool_decide (sortField t = fld) then _ else _).
  assert (sameRecords t t1 ∧ options t1 = options t ∧ searchTerm t1 = searchTerm t)
    as (Hr & Ho & Hq).
  { unfold t1. by case_bool_decide. }
  clearbody t1. cbn. rewrite Ho.
  destruct (serverSide (options t)); cbn;
    [| rewrite ?Ho; cbn; destruct (_ || _)];
    (split; [apply sameRecords_load; unfold sameRecords in *; cbn; done |]);
    match goal with
    | |- context [loadData ?u] =>
        destruct (loadData_frame u) as (-> & _);
        destruct (loadData_keeps u) as (_ & _ & _ & -> & _)
    end; cbn; by rewrite ?Ho.
Qed.

(** X2.  Paging, refreshing, loading more, searching and sorting never
    touch the records behind the view: the row objects, the original data
    and the stored version histories are what they were.  A history is
    therefore still found under the row index it was recorded for, whatever
    row a sort has moved to that index. *)
Theorem view_operations_keep_records `{Host} (t : Tabelin) :
  sameRecords t (nextPage t) ∧ sameRecords t (prevPage t) ∧
  (∀ p, sameRecords t (goToPage p t)) ∧ sameRecords t (refresh t) ∧
  sameRecords t (loadMore t) ∧
  (∀ query, sameRecords t (search query t)) ∧
  (∀ fld, sameRecords t (sortBy fld t)) ∧
  (∀ fld rowIndex columnField,
     storedHistory rowIndex columnField (sortBy fld t)
     = storedHistory rowIndex columnField t).
Proof.
  split_and!.
  - unfold nextPage. case_match; [| apply sameRecords_refl].
    by apply sameRecords_load.
  - unfold prevPage. case_match; [| apply sameRecords_refl].
    by apply sameRecords_load.
  - intros p. unfold goToPage. case_match; [| apply sameRecords_refl].
    by apply sameRecords_load.
  - unfold refresh. case_match; by apply sameRecords_load.
  - unfold loadMore, loadServerData, appendData, sameRecords.
    repeat case_match; done.
  - intros query. unfold search.
    repeat case_match; by apply sameRecords_load.
  - intros fld. apply sortBy_keeps.
  - intros fld rowIndex columnField.
    destruct (sortBy_keeps fld t) as ((_ & _ & Hc & Ha) & _).
    unfold storedHistory, historyAt. by rewrite Hc, Ha.
Qed.

(** With three rows sorted downwards, the history recorded for row index 0
    is still found there, while another row now stands at that index. *)
Lemma history_stays_with_row_index :
  let t := recordEdit (sharedTable 10) (editAt 0 "v1" 1) in
  let t' := sortBy (H := numericHost) "n" (sortBy (H := numericHost) "n" t) in
  rowAt t 0 = Some 0%nat ∧ rowAt t' 0 = Some 2%nat ∧
  storedHistory 0 "n" t' = [entryOf (editAt 0 "v1" 1)].
Proof. vm_compute. done. Qed.

(** ** Going back and forth *)

Lemma set_currentPage_same (t : Tabelin) : set_currentPage (currentPage t) t = t.
Proof. by destruct t. Qed.

Lemma loadData_absorbs (u : Tabelin) (p q : Z) :
  clientPaged u →
  loadData (set_currentPage p (loadData (set_currentPage q u)))
  = loadData (set_currentPage p u).
Proof.
  intros (Hb & Hs & Hi & Hl).
  destruct u as [o ? ? b ? ? ? ? ? ? ? ? ? ? ? ? ? ? ? ? ? ? ?].
  destruct o as [d cs sz ss lz inf cu vh mv].
  cbn in Hb, Hs, Hi, Hl. subst.
  unfold loadData, loadClientData, renderData, updatePaginationInfo. cbn.
  repeat match goal with
         | |- context [bool_decide (length ?x = 0%nat)] =>
             destruct (bool_decide (length x = 0%nat)); cbn
         end;
    reflexivity.
Qed.

Lemma loadData_clientPaged (u : Tabelin) :
  clientPaged u → clientPaged (loadData u) ∧ currentPage (loadData u) = currentPage u.
Proof.
  intros Hc. destruct (loadData_client u Hc) as (Ho & Hcp & _ & _ & Hb & _).
  destruct Hc as (_ & Hs & Hi & Hl). unfold clientPaged. by rewrite Ho, Hb.
Qed.

(** X3.  On a client-side paged table that a load has brought up to date,
    a step to the next page and back, or to the previous page and forth,
    restores the state in full: the same page, the same body, the same
    pagination line. *)
Theorem next_then_prev_restores (u : Tabelin) :
  clientPaged u → 1 ≤ currentPage u →
  let t := loadData u in
  (currentPage t < totalPages t → prevPage (nextPage t) = t) ∧
  (1 < currentPage t ≤ totalPages t → nextPage (prevPage t) = t).
Proof.
  intros Hc Hp t.
  destruct (loadData_clientPaged u Hc) as (Hct & Hcp). fold t in Hct, Hcp.
  assert (∀ p q, loadData (set_currentPage p (loadData (set_currentPage q t)))
                 = loadData (set_currentPage p u)) as Habs.
  { intros p q. rewrite (loadData_absorbs t p q Hct). unfold t.
    rewrite <- (set_currentPage_same u) at 1.
    by apply loadData_absorbs. }
  assert (∀ p, clientPaged (loadData (set_currentPage p t)) ∧
               currentPage (loadData (set_currentPage p t)) = p ∧
               totalPages (loadData (set_currentPage p t)) = totalPages t)
    as Hstep.
  { intros p.
    assert (clientPaged (set_currentPage p t)) as Hcs by exact Hct.
    destruct (loadData_clientPaged _ Hcs) as (? & ?).
    split_and!; [done | done |].
    rewrite (loadData_totalPages _ Hcs). cbn. unfold t.
    by rewrite (loadData_totalPages _ Hc), (proj2 (sameRecords_loadData u)). }
  assert (t = loadData (set_currentPage (currentPage t) u)) as Ht.
  { rewrite Hcp. by rewrite set_currentPage_same. }
  destruct Hct as (Hb & _).
  split.
  - intros Hlt. unfold nextPage. rewrite Hb.
    assert ((currentPage t <? totalPages t) = true) as -> by lia. cbn.
    destruct (Hstep (currentPage t + 1)) as ((Hb' & _) & Hcp' & Htp').
    unfold prevPage. rewrite Hb', Hcp'.
    assert ((currentPage t + 1 >? 1) = true) as -> by lia. cbn.
    rewrite Habs. replace (currentPage t + 1 - 1) with (currentPage t) by lia.
    by rewrite <- Ht.
  - intros (Hgt & Hle). unfold prevPage. rewrite Hb.
    assert ((currentPage t >? 1) = true) as -> by lia. cbn.
    destruct (Hstep (currentPage t - 1)) as ((Hb' & _) & Hcp' & Htp').
    unfold nextPage. rewrite Hb', Hcp', Htp'.
    assert ((currentPage t - 1 <? totalPages t) = true) as -> by lia. cbn.
    rewrite Habs. replace (currentPage t - 1 + 1) with (currentPage t) by lia.
    by rewrite <- Ht.
Qed.

(** From the first page of the table of 25 rows, and from its second. *)
Lemma next_then_prev_restores_witness :
  prevPage (nextPage table25) = table25 ∧
  nextPage (prevPage (goToPage 2 table25)) = goToPage 2 table25.
Proof.
  split.
  - destruct (next_then_prev_restores table25) as (Hnp & _);
      [by destruct settled_table25 | vm_compute; done |].
    assert (loadData table25 = table25) as Hl by (vm_compute; done).
    rewrite Hl in Hnp. apply Hnp. vm_compute. done.
  - destruct (next_then_prev_restores (set_currentPage 2 table25)) as (_ & Hpn);
      [vm_compute; done | vm_compute; done |].
    assert (loadData (set_currentPage 2 table25) = goToPage 2 table25)
      as Hl by (vm_compute; done).
    rewrite Hl in Hpn. apply Hpn. vm_compute. split; done.
Defined.

(** ** Searching a sorted table *)

(** X4.  A search starts again from the original data: the rows it leaves
    are those a search of the unsorted table leaves, in their original
    order, while the sort field, the direction and the marked header are
    still those of the sort. *)
Theorem search_forgets_sort `{Host} (fld query : string) (t : Tabelin) :
  let t' := search query (sortBy fld t) in
  data (options t') = data (options (search query t)) ∧
  sortedHeader t' = sortedHeader (sortBy fld t) ∧
  sortField t' = sortField (sortBy fld t) ∧
  sortDirection t' = sortDirection (sortBy fld t).
Proof.
  intros t'. unfold t'.
  destruct (sortBy_keeps fld t) as ((Hr & Ho & _) & Hc & _).
  split.
  - rewrite !search_data, Ho, Hc. case_bool_decide; [done |].
    apply filter_ext. intros l. unfold rowOf. by rewrite Hr.
  - unfold search.
    repeat case_match;
      match goal with
      | |- context [loadData ?u] =>
          destruct (loadData_frame u) as (_ & _ & _ & -> & ->);
          destruct (loadData_keeps u) as (_ & _ & -> & _)
      end; done.
Qed.

(** The three rows sorted by [n] stand in the order 2, 0, 1; a cleared
    search puts them back in the order 0, 1, 2 under a header that still
    says sorted upwards by [n]. *)
Lemma search_after_sort_example :
  let sorted := sortBy (H := numericHost) "n" tiedTable in
  let t := search "" sorted in
  data (options sorted) = [2; 0; 1]%nat ∧
  data (options t) = [0; 1; 2]%nat ∧ renderedRows t = [0; 1; 2]%nat ∧
  sortedHeader t = Some ("n", Asc).
Proof. vm_compute. done. Qed.

(** ** The pagination buttons *)

(** X5.  On a client-side paged table brought up to date by a load, with
    the current page within the range of pages, a pagination button is
    disabled exactly when the step it stands for would change nothing. *)
Theorem buttons_disabled_iff_noop (u : Tabelin) :
  clientPaged u →
  let t := loadData u in
  1 ≤ currentPage t ≤ totalPages t →
  (prevDisabled t = true ↔ prevPage t = t) ∧
  (nextDisabled t = true ↔ nextPage t = t).
Proof.
  intros Hc t Hrange.
  destruct (loadData_clientPaged u Hc) as (Hct & Hcp). fold t in Hct, Hcp.
  assert (prevDisabled t = bool_decide (currentPage t = 1) ∧
          nextDisabled t = bool_decide (currentPage t = totalPages t))
    as (-> & ->).
  { destruct Hc as (Hb & Hs & Hi & Hl).
    unfold t, loadData, loadClientData. rewrite Hb. cbn. rewrite Hs. cbn.
    rewrite Hi, Hl. cbn. done. }
  assert (∀ p, currentPage (loadData (set_currentPage p t)) = p) as Hgo.
  { intros p.
    assert (clientPaged (set_currentPage p t)) as Hcs by exact Hct.
    by destruct (loadData_clientPaged _ Hcs) as (_ & ->). }
  destruct Hct as (Hb & _).
  split; (split; [intros Hd; apply bool_decide_eq_true in Hd | intros Hn]).
  - unfold prevPage. assert ((currentPage t >? 1) = false) as -> by lia. done.
  - apply bool_decide_eq_true. unfold prevPage in Hn. rewrite Hb in Hn.
    destruct (Z.gtb_spec (currentPage t) 1) as [Hgt | Hle]; [| lia].
    cbn in Hn. pose proof (Hgo (currentPage t - 1)) as Hp.
    rewrite Hn in Hp. lia.
  - unfold nextPage.
    assert ((currentPage t <? totalPages t) = false) as -> by lia. done.
  - apply bool_decide_eq_true. unfold nextPage in Hn. rewrite Hb in Hn.
    destruct (Z.ltb_spec (currentPage t) (totalPages t)) as [Hlt | Hge]; [| lia].
    cbn in Hn. pose proof (Hgo (currentPage t + 1)) as Hp.
    rewrite Hn in Hp. lia.
Qed.

Lemma buttons_disabled_iff_noop_witness :
  let t := loadData (set_currentPage 3 table25) in
  nextDisabled t = true ∧ nextPage t = t ∧ prevDisabled t = false.
Proof.
  intros t.
  destruct (buttons_disabled_iff_noop (set_currentPage 3 table25))
    as (_ & Hnext & _); [vm_compute; done | vm_compute; split; discriminate |].
  assert (nextDisabled t = true) as Hd by (vm_compute; done).
  split_and!; [exact Hd | apply Hnext, Hd | vm_compute; done].
Defined.

(** With no rows there are zero pages and the current page is 1, outside
    the range: the button for the next page is enabled and does nothing. *)
Lemma next_button_on_empty_table :
  totalPages table0 = 0 ∧ nextDisabled table0 = false ∧
  nextPage table0 = table0.
Proof. vm_compute. done. Qed.

(** ** Loading in batches *)

Lemma renderedRows_appendData (d : list loc) (t : Tabelin) :
  renderedRows (appendData d t) = renderedRows t ++ d.
Proof.
  unfold renderedRows, appendData. cbn.
  rewrite omap_app. f_equal. by apply omap_shownRow_imap.
Qed.

Lemma loadData_first_batch (u : Tabelin) :
  serverSide (options u) = false →
  infiniteScroll (options u) || lazyLoad (options u) = true →
  isBusy u = false → loadedRows u = 0 →
  streamed (loadData u) ∧ options (loadData u) = options u ∧
  loadedRows (loadData u)
  = Z.min (Z.pos (pageSize (options u))) (len (data (options u))).
Proof.
  intros Hs Hinc Hb H0.
  assert (0 ≤ len (data (options u))) as Hlen by (unfold len; lia).
  unfold loadData. rewrite Hb. cbn. rewrite Hs.
  unfold loadClientData. cbn. rewrite Hinc, H0. cbn.
  rewrite (bool_decide_true (0 = 0)) by done.
  set (d := slice _ _ _).
  pose proof (renderedRows_renderData d (set_loading true (set_isBusy true u))) as Hr.
  assert (d = take (Z.to_nat (Z.min (Z.pos (pageSize (options u)))
                                    (len (data (options u)))))
                   (data (options u))) as Hd.
  { unfold d. rewrite slice_take_drop by lia. cbn. f_equal. lia. }
  unfold streamed, renderedRows, renderData in *.
  case_bool_decide; cbn in *; rewrite Hs, Hinc, Hr;
    (split_and!; try done; lia).
Qed.

Lemma loadMore_prefix (t : Tabelin) :
  streamed t →
  streamed (loadMore t) ∧
  options (loadMore t) = options t ∧
  loadedRows (loadMore t)
  = Z.min (loadedRows t + Z.pos (pageSize (options t))) (len (data (options t))).
Proof.
  intros Hst. pose proof Hst as (Hs & Hinc & Hb & Hlr & Hr & Hm).
  unfold loadMore. rewrite Hb, Hm. cbn.
  destruct (Z.ltb_spec (loadedRows t) (len (data (options t)))) as [Hlt | Hge];
    cbn.
  2: { split_and!; [exact Hst | done | lia]. }
  rewrite Hs.
  set (size := Z.pos (pageSize (options t))).
  set (d := data (options t)) in *.
  set (batch := slice d (loadedRows t) (loadedRows t + size)).
  assert (batch = take (Z.to_nat size) (drop (Z.to_nat (loadedRows t)) d))
    as Hbatch.
  { unfold batch. rewrite slice_take_drop by lia. f_equal. lia. }
  assert (len batch = Z.min size (len d - loadedRows t)) as Hlen.
  { rewrite Hbatch. unfold len in *. rewrite length_take, length_drop. lia. }
  assert (loadedRows t + len batch = Z.min (loadedRows t + size) (len d))
    as Hnew by lia.
  split_and!; [| done | exact Hnew].
  unfold streamed. cbn. fold d. rewrite Hs, Hinc, Hnew.
  split_and!; try done; try lia.
  pose proof (renderedRows_appendData batch (set_isBusy true t)) as Ha.
  unfold renderedRows in *. cbn in *. rewrite Ha, Hr, Hbatch.
  rewrite take_take_drop.
  destruct (Z.le_gt_cases (loadedRows t + size) (len d)) as [Hle | Hgt].
  - f_equal. lia.
  - unfold len in *. rewrite !take_ge by lia. done.
Qed.

(** X6.  A client-side table that loads in batches stays in step with its
    data: after [refresh], [loadMore], [search] and [sortBy] no load is
    under way, the body shows exactly the first [loadedRows] rows of the
    working data, and [hasMoreData] holds exactly when rows are left. *)
Theorem batched_view_stays_in_step `{Host} (t : Tabelin) :
  streamed t →
  streamed (refresh t) ∧ streamed (loadMore t) ∧
  (∀ query, streamed (search query t)) ∧
  (∀ fld, streamed (sortBy fld t)).
Proof.
  intros Hst. pose proof Hst as (Hs & Hinc & Hb & _).
  split_and!.
  - unfold refresh. rewrite Hinc.
    apply loadData_first_batch; done.
  - by apply loadMore_prefix.
  - intros query. unfold search.
    destruct (bool_decide (query = "") || bool_decide (trim query = ""));
      cbn; rewrite Hinc; apply loadData_first_batch; cbn; done.
  - intros fld. unfold sortBy.
    destruct (negb _); [done |].
    case_bool_decide; cbn; rewrite Hs; cbn; rewrite Hinc;
      apply loadData_first_batch; cbn; done.
Qed.

Lemma construct_streamed (o : Options) (store : gmap loc row) :
  serverSide o = false → infiniteScroll o || lazyLoad o = true →
  streamed (construct o store) ∧ options (construct o store) = o ∧
  loadedRows (construct o store) = Z.min (Z.pos (pageSize o)) (len (data o)).
Proof.
  intros Hs Hinc. unfold construct. by apply loadData_first_batch.
Qed.

Lemma batched_view_stays_in_step_witness :
  streamed (loadMore lazyTable) ∧
  streamed (search "2" lazyTable) ∧
  streamed (sortBy (H := numericHost) "n" lazyTable).
Proof.
  assert (streamed lazyTable) as Hst by (by apply construct_streamed).
  destruct (batched_view_stays_in_step (H := numericHost) lazyTable Hst)
    as (_ & Hm & Hq & Hf).
  split_and!; [exact Hm | exact (Hq "2") | exact (Hf "n")].
Defined.

(** X7.  Scrolling reaches every row, in order and once: after the first
    load and [k] further calls of [loadMore] the body shows the first
    [(k + 1) * pageSize] rows of the data, and once that many covers the
    data the body shows all of it and [hasMoreData] is off. *)
Theorem scrolling_shows_prefix (o : Options) (store : gmap loc row) (k : nat) :
  serverSide o = false → infiniteScroll o || lazyLoad o = true →
  let t := Nat.iter k loadMore (construct o store) in
  let shown := ((k + 1) * Pos.to_nat (pageSize o))%nat in
  renderedRows t = take shown (data o) ∧
  isBusy t = false ∧
  hasMoreData t = bool_decide (shown < length (data o))%nat ∧
  ((length (data o) ≤ shown)%nat → renderedRows t = data o).
Proof.
  intros Hs Hinc t shown.
  assert (streamed t ∧ options t = o ∧
          loadedRows t = Z.min (Z.of_nat shown) (len (data o)))
    as (Hst & Ho & Hlr).
  { unfold t, shown. clear t shown. induction k as [| k IH].
    - destruct (construct_streamed o store Hs Hinc) as (? & ? & Hl).
      change (Nat.iter 0 loadMore (construct o store)) with (construct o store).
      rewrite Hl. split_and!; [done | done |]. lia.
    - change (Nat.iter (S k) loadMore (construct o store))
        with (loadMore (Nat.iter k loadMore (construct o store))).
      destruct IH as (Hst & Ho & Hlr).
      destruct (loadMore_prefix _ Hst) as (? & Ho' & ->).
      rewrite Ho' , Ho, Hlr. split_and!; [done | done |]. lia. }
  destruct Hst as (_ & _ & Hb & _ & Hr & Hm). rewrite Ho in Hr, Hm.
  assert (renderedRows t = take shown (data o)) as Hshown.
  { rewrite Hr, Hlr. unfold len.
    destruct (Nat.le_gt_cases shown (length (data o))) as [Hle | Hgt].
    - f_equal. lia.
    - rewrite !take_ge by lia. done. }
  split_and!; [exact Hshown | exact Hb | |].
  - rewrite Hm, Hlr. unfold len.
    case_bool_decide; [apply Z.ltb_lt | apply Z.ltb_ge]; lia.
  - intros Hall. rewrite Hshown. by apply take_ge.
Qed.

(** Twenty-five rows, ten at a time: all are shown after two calls of
    [loadMore]. *)
Lemma scrolling_shows_prefix_witness :
  renderedRows (Nat.iter 2 loadMore (construct lazyOptions (numberedRows 25)))
  = seq 0 25.
Proof.
  destruct (scrolling_shows_prefix lazyOptions (numberedRows 25) 2
              eq_refl eq_refl) as (_ & _ & _ & Hall).
  apply Hall. vm_compute. lia.
Defined.

(** ** The text of a cell *)

(** X8.  In a column without a [render] function the rows that
    [appendData] adds show a blank where [renderData] shows the text of a
    value that counts as false: the two texts differ exactly for [false],
    [NaN] and [0]. *)
Theorem appended_rows_blank_falsy_values (c : column) (r : row) :
  render c = None →
  let v := getField r (field c) in
  appendedCellText c r = (if truthy v then cellText c r else "") ∧
  (appendedCellText c r ≠ cellText c r ↔
   v = VBool false ∨ v = VNum NaN ∨ v = VNum (Fin 0)).
Proof.
  intros Hr v. unfold appendedCellText, cellText. rewrite Hr. fold v.
  destruct v as [| | [|] | [| | [| p | p] |] | [| a s]]; cbn;
    (split; [done |]);
    (split; [intros Hne; first [by destruct Hne | by auto]
            | intros [? | [? | ?]]; congruence]).
Qed.

Lemma appended_rows_blank_falsy_values_witness :
  let c := {| field := "n"; title := "N"; render := None |} in
  appendedCellText c {[ "n" := VNum (Fin 0) ]} = "" ∧
  cellText c {[ "n" := VNum (Fin 0) ]} = "0".
Proof.
  intros c.
  destruct (appended_rows_blank_falsy_values c {[ "n" := VNum (Fin 0) ]} eq_refl)
    as (Ha & _).
  split; [exact Ha | reflexivity].
Defined.

(** Two rows [{n: 0}] loaded one at a time: the first batch shows "0", the
    second a blank. *)
Lemma zero_is_blank_in_later_batches :
  let rows : gmap loc row :=
    list_to_map [(0%nat, {[ "n" := VNum (Fin 0) ]});
                 (1%nat, {[ "n" := VNum (Fin 0) ]})] in
  let t :=
    construct
      {| data := [0; 1]%nat;
         columns := [{| field := "n"; title := "N"; render := None |}];
         pageSize := 1; serverSide := false; lazyLoad := true;
         infiniteScroll := false; collaborationUser := None;
         versionHistory := false; maxVersions := 10 |} rows in
  tbody (loadMore t) = [TrRow 0 0 ["0"]; TrRow 1 1 [""]].
Proof. vm_compute. done. Qed.

(** ** The answer of the server *)

Lemma allocRows_spec (rs : list row) (store : gmap loc row) :
  rowStore_extends rs store (allocRows rs store).
Proof.
  revert store. induction rs as [| r rs IH]; intros store.
  - unfold rowStore_extends. cbn. split_and!; try done; constructor.
  - unfold rowStore_extends in *. cbn.
    set (l := fresh (dom store)).
    assert (l ∉ dom store) as Hl by apply is_fresh.
    specialize (IH (<[l := r]> store)).
    destruct (allocRows rs (<[l := r]> store)) as [ls store'].
    destruct IH as (Hsub & Hlook & Hfresh & Hnd).
    assert (store ⊆ <[l := r]> store) as Hins.
    { apply insert_subseteq. by apply not_elem_of_dom. }
    split_and!.
    + by trans (<[l := r]> store).
    + constructor; [| done].
      eapply lookup_weaken; [| exact Hsub]. by simplify_map_eq.
    + constructor; [done |].
      eapply Forall_impl; [exact Hfresh |]. cbn. intros x Hx.
      rewrite dom_insert in Hx. set_solver.
    + constructor; [| done].
      intros Hin. rewrite Forall_forall in Hfresh.
      apply (Hfresh l Hin). rewrite dom_insert. set_solver.
Qed.

Lemma onServerData_frame (reply : response) (t : Tabelin) :
  options (onServerData reply t) = options t ∧
  originalData (onServerData reply t) = originalData t ∧
  rowStore t ⊆ rowStore (onServerData reply t) ∧
  isBusy (onServerData reply t) = false.
Proof.
  unfold onServerData.
  pose proof (allocRows_spec (default [] (resp_rows reply)) (rowStore t)) as Hspec.
  destruct (allocRows _ _) as [received store].
  destruct Hspec as (Hsub & _).
  unfold renderData, appendData, updatePaginationInfo.
  repeat (case_bool_decide || case_match); cbn; done.
Qed.

Lemma onServerData_paged_rows (reply : response) (t : Tabelin) :
  infiniteScroll (options t) = false → lazyLoad (options t) = false →
  ∃ received store,
    allocRows (default [] (resp_rows reply)) (rowStore t) = (received, store) ∧
    renderedRows (onServerData reply t) = received ∧
    rowStore (onServerData reply t) = store.
Proof.
  intros Hi Hl. unfold onServerData.
  destruct (allocRows _ _) as [received store].
  exists received, store. split; [done |].
  cbn. rewrite Hi, Hl. cbn.
  pose proof (renderedRows_renderData received (set_rowStore store t)) as Hr.
  unfold renderedRows, renderData in *.
  case_bool_decide; cbn in *; done.
Qed.

(** X9.  When the answer of the server arrives in a paged table, the load
    is over, the body shows the rows of the answer in their order, the page
    count is never zero, and the row objects the table already held are
    what they were. *)
Theorem server_reply_is_rendered (reply : response) (t : Tabelin) :
  infiniteScroll (options t) = false → lazyLoad (options t) = false →
  let t' := onServerData reply t in
  isBusy t' = false ∧ loading t' = false ∧ totalPages t' ≠ 0 ∧
  rowOf t' <$> renderedRows t' = default [] (resp_rows reply) ∧
  (∀ l, l ∈ dom (rowStore t) → rowOf t' l = rowOf t l) ∧
  options t' = options t.
Proof.
  intros Hi Hl t'.
  destruct (onServerData_frame reply t) as (Ho & _ & Hsub & Hb). fold t' in Ho, Hsub, Hb.
  assert (∀ a b, b ≠ 0 → orElse a b ≠ 0) as Hor.
  { intros [n |] b Hb0; cbn; [case_bool_decide |]; done. }
  split_and!; [exact Hb | | | | | exact Ho].
  - unfold t', onServerData. by destruct (allocRows _ _).
  - unfold t', onServerData. destruct (allocRows _ _) as [received store].
    cbn. rewrite Hi, Hl. cbn.
    unfold renderData. case_bool_decide; cbn; by auto.
  - destruct (onServerData_paged_rows reply t Hi Hl)
      as (received & store & Halloc & Hrr & Hst).
    pose proof (allocRows_spec (default [] (resp_rows reply)) (rowStore t))
      as (_ & Hlook & _).
    rewrite Halloc in Hlook. cbn in Hlook.
    fold t' in Hrr, Hst. rewrite Hrr. unfold rowOf. rewrite Hst.
    clear Halloc Hrr.
    induction Hlook as [| l r ls rs Hlr _ IH]; cbn; [done |].
    by rewrite Hlr, IH.
  - intros l Hin. apply elem_of_dom in Hin as [r Hr].
    unfold rowOf. rewrite Hr.
    by rewrite (lookup_weaken _ _ _ _ Hr Hsub).
Qed.

Lemma server_reply_is_rendered_witness :
  let reply :=
    {| resp_rows := Some [{[ "n" := VNum (Fin 7) ]}]; resp_totalPages := None;
       resp_totalRecords := Some 0; resp_recordsTotal := None;
       resp_recordsFiltered := None |} in
  totalPages (onServerData reply serverTable) ≠ 0 ∧
  isBusy (onServerData reply serverTable) = false.
Proof.
  intros reply.
  destruct (server_reply_is_rendered reply serverTable eq_refl eq_refl)
    as (Hb & _ & Hp & _).
  split; [exact Hp | exact Hb].
Defined.

(** X10.  An answer of the server never reaches [options.data], which is
    all that [getExportData] reads on a server-side table: the export is
    what it was before the answer, one row for each element of
    [options.data], so with no initial data it is empty whatever the server
    has sent. *)
Theorem server_export_ignores_replies (reply : response) (t : Tabelin) :
  serverSide (options t) = true →
  Forall (λ l, l ∈ dom (rowStore t)) (data (options t)) →
  let t' := onServerData reply t in
  getExportData t' = getExportData t ∧
  length (getExportData t') = length (data (options t)).
Proof.
  intros Hs Hd t'.
  destruct (onServerData_frame reply t) as (Ho & _ & Hsub & _).
  fold t' in Ho, Hsub.
  unfold getExportData. rewrite Ho, Hs. rewrite length_fmap.
  split; [| done].
  apply Forall_fmap_ext_1. eapply Forall_impl; [exact Hd |]. cbn.
  intros l Hin. apply elem_of_dom in Hin as [r Hr].
  unfold rowOf. by rewrite Hr, (lookup_weaken _ _ _ _ Hr Hsub).
Qed.

Lemma server_export_ignores_replies_witness :
  let reply :=
    {| resp_rows := Some [{[ "n" := VNum (Fin 7) ]}]; resp_totalPages := Some 1;
       resp_totalRecords := Some 1; resp_recordsTotal := None;
       resp_recordsFiltered := None |} in
  renderedRows (onServerData reply serverTable) ≠ [] ∧
  getExportData (onServerData reply serverTable) = [].
Proof.
  intros reply.
  destruct (server_export_ignores_replies reply serverTable eq_refl)
    as (He & _); [constructor |].
  split; [vm_compute; done | exact He].
Defined.

(** ** Sorting and searching on the server *)

Lemma loadData_server (u : Tabelin) :
  serverSide (options u) = true → isBusy u = false →
  loadData u
  = set_fetches (fetches u ++ [buildServerParams u])
      (set_loading true (set_isBusy true u)).
Proof.
  intros Hs Hb. unfold loadData. rewrite Hb. cbn. rewrite Hs.
  reflexivity.
Qed.





(** X13.  [search] on a server-side table filters the original data on the
    client and sends a query, but the query does not carry the text
    searched for: its [search] parameter is the stored [searchTerm], which
    [search] does not set. *)
Theorem search_query_is_not_sent (query : string) (t : Tabelin) :
  serverSide (options t) = true → isBusy t = false →
  let t' := search query t in
  searchTerm t' = searchTerm t ∧
  ∃ r, fetches t' = fetches t ++ [r] ∧
       rq_search r
       = (if bool_decide (searchTerm t = "") then None else Some (searchTerm t)).
Proof.
  intros Hs Hb t'. unfold t', search.
  destruct (bool_decide (query = "") || bool_decide (trim query = ""));
    cbn; destruct (_ || _);
    rewrite loadData_server by (cbn; done); cbn;
    (split; [done |]); eexists; (split; [reflexivity |]); done.
Qed.

Lemma search_query_is_not_sent_witness :
  let t := onServerData
             {| resp_rows := None; resp_totalPages := None;
                resp_totalRecords := None; resp_recordsTotal := None;
                resp_recordsFiltered := None |} serverTable in
  ∃ r, fetches (search "pear" t) = fetches t ++ [r] ∧ rq_search r = None.
Proof.
  intros t.
  destruct (search_query_is_not_sent "pear" t) as (_ & r & Hf & Hr);
    [done | done |].
  exists r. split; [exact Hf | exact Hr].
Defined.

(** ** Changes to a cell on a later page *)

Lemma updateCell_imap (g : loc → list string) (d : list loc) (k i columnIndex : nat)
    (text : string) (l : loc) :
  d !! i = Some l →
  updateCell (Z.of_nat (k + i)) columnIndex text
    (imap (λ j l, TrRow (Z.of_nat (k + j)) l (g l)) d)
  = <[i := TrRow (Z.of_nat (k + i)) l (<[columnIndex := text]> (g l))]>
      (imap (λ j l, TrRow (Z.of_nat (k + j)) l (g l)) d).
Proof.
  revert k i. induction d as [| x d IH]; intros k i Hi; [done |].
  destruct i as [| i]; cbn.
  - rewrite Nat.add_0_r. rewrite bool_decide_true by done.
    by injection Hi as ->.
  - rewrite Nat.add_0_r. rewrite bool_decide_false by lia.
    f_equal. cbn in Hi.
    assert (imap ((λ j l0, TrRow (Z.of_nat (k + j)) l0 (g l0)) ∘ S) d
            = imap (λ j l0, TrRow (Z.of_nat (S k + j)) l0 (g l0)) d) as ->.
    { apply imap_ext. intros j y _. cbn. do 2 f_equal. lia. }
    replace (k + S i)%nat with (S k + i)%nat by lia.
    by apply IH.
Qed.

Lemma loadData_body (u : Tabelin) (position : nat) (shown : loc) :
  clientPaged u →
  pageSlice u !! position = Some shown →
  tbody (loadData u)
  = imap (λ j l, TrRow (Z.of_nat (0 + j)) l
                       (map (λ c, cellText c (rowOf u l)) (columns (options u))))
         (pageSlice u).
Proof.
  intros (Hb & Hs & Hi & Hl) Hshown.
  unfold loadData. rewrite Hb. cbn. rewrite Hs.
  unfold loadClientData. cbn. rewrite Hi, Hl. cbn.
  fold (pageSlice u). unfold renderData.
  rewrite bool_decide_false; [done |].
  intros Hlen. apply length_zero_iff_nil in Hlen. by rewrite Hlen in Hshown.
Qed.

Lemma addToVersionHistory_frame (rowIndex : Z) (f : string) (v : value)
    (u : option user) (now : Z) (t : Tabelin) :
  tbody (addToVersionHistory rowIndex f v u now t) = tbody t ∧
  rowStore (addToVersionHistory rowIndex f v u now t) = rowStore t ∧
  originalData (addToVersionHistory rowIndex f v u now t) = originalData t.
Proof.
  unfold addToVersionHistory. repeat case_match; cbn; done.
Qed.

Lemma findColumn_lookup (f : string) (cols : list column) (i : nat) :
  findColumn f cols = Some i → ∃ c, cols !! i = Some c ∧ field c = f.
Proof.
  revert i. induction cols as [| c cols IH]; intros i; cbn; [done |].
  case_bool_decide as Hc.
  - intros [= <-]. by exists c.
  - destruct (findColumn f cols) as [j |]; cbn; [| done].
    intros [= <-]. by apply IH.
Qed.

(** X14.  A change from a collaborator names a row by its index in the
    working data, and the body names its rows by their position on the
    page.  On a client-side paged table the value is written to the row at
    that index, while the cell rewritten on the screen is the one at that
    position of the current page: it shows the new text although the row
    it stands for, if another one, is what it was. *)
Theorem remote_change_lands_on_shown_position
    (u : Tabelin) (position columnIndex : nat) (f : string) (v : value)
    (sender : option user) (now : Z) (l shown : loc) :
  clientPaged u →
  (∀ who me, sender = Some who → collaborationUser (options u) = Some me →
             strict_eq (user_id who) (user_id me) = false) →
  findColumn f (columns (options u)) = Some columnIndex →
  data (options u) !! position = Some l →
  pageSlice u !! position = Some shown →
  let t := loadData u in
  let t' := updateCellFromCollaboration (Z.of_nat position) f v sender now t in
  getField (rowOf t' l) f = v ∧
  (shown ≠ l → rowOf t' shown = rowOf t shown) ∧
  ∃ cells,
    shownAt t' position = Some (shown, cells) ∧
    cells !! columnIndex
    = Some (changedCellText (columns (options u) !! columnIndex) v
                            (<[f := v]> (rowOf t l))).
Proof.
  intros Hc Hown Hcol Hl Hshown t t'.
  destruct (loadData_frame u) as (Ho & _ & Hr & _). fold t in Ho, Hr.
  pose proof (loadData_body u position shown Hc Hshown) as Hbody. fold t in Hbody.
  destruct (findColumn_lookup _ _ _ Hcol) as (c & Hlc & Hfc).
  assert (rowOf t = rowOf u) as Hrow by (unfold rowOf; by rewrite Hr).
  set (r := <[f := v]> (rowOf t l)).
  set (text := changedCellText (columns (options u) !! columnIndex) v r).
  set (t2 := set_tbody (updateCell (Z.of_nat position) columnIndex text (tbody t))
               (set_rowStore (<[l := r]> (rowStore t)) t)).
  assert (tbody t' = tbody t2 ∧ rowStore t' = rowStore t2) as (Hb' & Hr').
  { unfold t', updateCellFromCollaboration.
    assert (match sender, collaborationUser (options t) with
            | Some who, Some me => strict_eq (user_id who) (user_id me)
            | _, _ => false
            end = false) as ->.
    { rewrite Ho. destruct sender as [who |]; [| done].
      destruct (collaborationUser (options u)) as [me |] eqn:Hme; [| done].
      by apply Hown. }
    rewrite Ho, Hcol. unfold rowAt. rewrite Ho.
    assert ((Z.of_nat position <? 0) = false) as -> by (apply Z.ltb_ge; lia).
    rewrite Nat2Z.id, Hl. cbn. rewrite Ho. fold r text t2.
    destruct (versionHistory (options u)); [| done].
    destruct (addToVersionHistory_frame (Z.of_nat position) f v sender now t2)
      as (-> & -> & _). done. }
  split_and!.
  - unfold rowOf. rewrite Hr'. cbn. rewrite lookup_insert_eq. cbn.
    unfold getField, r. by rewrite lookup_insert_eq.
  - intros Hne. unfold rowOf. rewrite Hr'. cbn.
    by rewrite lookup_insert_ne.
  - unfold shownAt. rewrite Hb'. cbn. rewrite Hbody.
    rewrite (updateCell_imap _ _ 0 position columnIndex text shown Hshown).
    rewrite list_lookup_insert_eq.
    2: { rewrite length_imap. by eapply lookup_lt_Some. }
    eexists. split; [reflexivity |].
    rewrite list_lookup_insert_eq; [done |].
    rewrite length_map. by eapply lookup_lt_Some.
Qed.

(** On the second page of 25 rows, ten to a page, a change to row 0 writes
    99 to the first row of the data and shows "99" in the first row of the
    page, which stands for the eleventh row and still holds 11. *)
Lemma remote_change_lands_on_shown_position_witness :
  let t := loadData sharedPage2 in
  let t' := updateCellFromCollaboration 0 "n" (VNum (Fin 99)) (Some bob) 1000 t in
  getField (rowOf t' 0) "n" = VNum (Fin 99) ∧
  getField (rowOf t' 10) "n" = VNum (Fin 11) ∧
  shownAt t' 0 = Some (10%nat, ["99"]).
Proof.
  intros t t'.
  destruct (remote_change_lands_on_shown_position
              sharedPage2 0 0 "n" (VNum (Fin 99)) (Some bob) 1000 0 10)
    as (Hv & _ & _).
  - vm_compute. done.
  - intros who me [= <-] [= <-]. reflexivity.
  - reflexivity.
  - reflexivity.
  - reflexivity.
  - split; [exact Hv |]. vm_compute. done.
Defined.

(** ** Editing a cell *)

Lemma dispatch_table (m : outbound) (s : Session) :
  table (dispatch m s) = table s ∧
  ((socketSent (dispatch m s) = socketSent s ++ [m] ∧
    pendingChanges (dispatch m s) = pendingChanges s) ∨
   (pendingChanges (dispatch m s) = pendingChanges s ++ [m] ∧
    socketSent (dispatch m s) = socketSent s)).
Proof. unfold dispatch. case_match; cbn; auto. Qed.

Lemma editCell_effect (isEditable : column → bool) (position columnIndex : nat)
    (typed : string) (sendTime recordTime : Z) (s : Session)
    (rowIndex : Z) (shown l : loc) (cells : list string) (old : string)
    (col : column) :
  tbody (table s) !! position = Some (TrRow rowIndex shown cells) →
  cells !! columnIndex = Some old →
  columns (options (table s)) !! columnIndex = Some col →
  rowAt (table s) rowIndex = Some l →
  isEditable col = true →
  strict_eq (VStr typed) (getField (rowOf (table s) l) (field col)) = false →
  let s' := editCell isEditable position columnIndex typed sendTime recordTime s in
  let r := <[field col := VStr typed]> (rowOf (table s) l) in
  let text := match render col with Some f => f (VStr typed) r | None => typed end in
  let m := CellChanged rowIndex (field col) (VStr typed)
             (default localUser (collaborationUser (options (table s))))
             sendTime in
  rowStore (table s') = <[l := r]> (rowStore (table s)) ∧
  tbody (table s')
  = <[position := TrRow rowIndex shown (<[columnIndex := text]> cells)]>
      (tbody (table s)) ∧
  ((socketSent s' = socketSent s ++ [m] ∧ pendingChanges s' = pendingChanges s) ∨
   (pendingChanges s' = pendingChanges s ++ [m] ∧ socketSent s' = socketSent s)).
Proof.
  intros Hrow Hcell Hcol Hat Hed Hne s' r text m.
  unfold s', editCell. rewrite Hrow, Hcell, Hcol, Hat, Hed, Hne. cbn.
  fold r. fold text.
  set (t2 := set_tbody _ _).
  unfold sendCellChange. cbn. fold m.
  destruct (dispatch_table m (set_table t2 s)) as (Ht & Hm).
  rewrite Ht. cbn in *.
  destruct (versionHistory (options (table s))); cbn;
    rewrite ?(proj1 (addToVersionHistory_frame _ _ _ _ _ _)),
            ?(proj1 (proj2 (addToVersionHistory_frame _ _ _ _ _ _)));
    rewrite ?Ht; cbn; done.
Qed.

(** X15.  The editor takes the row to write from the position of the
    double-clicked row on the page, and reads that position as an index
    into the working data.  On a client-side paged table the typed text is
    therefore written to the row at that index of the data, while the cell
    that shows it belongs to the row at that position of the current page,
    which, if another one, is left as it was. *)
Theorem edit_writes_row_at_page_position
    (isEditable : column → bool) (u : Tabelin) (s : Session)
    (position columnIndex : nat) (typed : string) (sendTime recordTime : Z)
    (l shown : loc) (col : column) :
  clientPaged u → table s = loadData u →
  pageSlice u !! position = Some shown →
  data (options u) !! position = Some l →
  columns (options u) !! columnIndex = Some col →
  isEditable col = true →
  strict_eq (VStr typed) (getField (rowOf u l) (field col)) = false →
  let s' := editCell isEditable position columnIndex typed sendTime recordTime s in
  let r := <[field col := VStr typed]> (rowOf u l) in
  getField (rowOf (table s') l) (field col) = VStr typed ∧
  (shown ≠ l → rowOf (table s') shown = rowOf u shown) ∧
  ∃ cells,
    shownAt (table s') position = Some (shown, cells) ∧
    cells !! columnIndex
    = Some (match render col with Some f => f (VStr typed) r | None => typed end).
Proof.
  intros Hc Ht Hshown Hl Hcol Hed Hne s' r.
  destruct (loadData_frame u) as (Ho & _ & Hr & _).
  pose proof (loadData_body u position shown Hc Hshown) as Hbody.
  assert (rowOf (table s) = rowOf u) as Hrow.
  { unfold rowOf. by rewrite Ht, Hr. }
  set (cells0 := map (λ c, cellText c (rowOf u shown)) (columns (options u))).
  assert (tbody (table s) !! position
          = Some (TrRow (Z.of_nat position) shown cells0)) as Hpos.
  { rewrite Ht, Hbody, list_lookup_imap, Hshown. done. }
  assert (∃ old, cells0 !! columnIndex = Some old) as (old & Hold).
  { apply lookup_lt_is_Some. unfold cells0. rewrite length_map.
    by eapply lookup_lt_Some. }
  destruct (editCell_effect isEditable position columnIndex typed sendTime
              recordTime s (Z.of_nat position) shown l cells0 old col)
    as (Hstore & Htb & _).
  - exact Hpos.
  - exact Hold.
  - by rewrite Ht, Ho.
  - unfold rowAt. rewrite Ht, Ho.
    assert ((Z.of_nat position <? 0) = false) as -> by (apply Z.ltb_ge; lia).
    by rewrite Nat2Z.id.
  - exact Hed.
  - by rewrite Hrow.
  - fold s' in Hstore, Htb. rewrite Hrow in Hstore, Htb. fold r in Hstore, Htb.
    split_and!.
    + unfold rowOf at 1. rewrite Hstore, lookup_insert_eq. cbn.
      unfold getField, r. by rewrite lookup_insert_eq.
    + intros Hneq. unfold rowOf at 1. rewrite Hstore, lookup_insert_ne by done.
      by rewrite Ht, Hr.
    + unfold shownAt. rewrite Htb.
      rewrite list_lookup_insert_eq by (by eapply lookup_lt_Some).
      eexists. split; [reflexivity |].
      rewrite list_lookup_insert_eq; [done |]. by eapply lookup_lt_Some.
Qed.

(** On the second page of 25 rows, ten to a page, typing "x" into the
    first row writes "x" to the first row of the data; the eleventh row,
    whose cell now reads "x", still holds 11. *)
Lemma edit_writes_row_at_page_position_witness :
  let s := pollingSession (loadData sharedPage2) in
  let s' := editCell (λ _, true) 0 0 "x" 1000 1001 s in
  getField (rowOf (table s') 0) "n" = VStr "x" ∧
  getField (rowOf (table s') 10) "n" = VNum (Fin 11) ∧
  shownAt (table s') 0 = Some (10%nat, ["x"]).
Proof.
  intros s s'.
  destruct (edit_writes_row_at_page_position
              (λ _, true) sharedPage2 s 0 0 "x" 1000 1001 0 10
              {| field := "n"; title := "N"; render := None |})
    as (Hv & _ & _).
  - vm_compute. done.
  - reflexivity.
  - reflexivity.
  - reflexivity.
  - reflexivity.
  - reflexivity.
  - reflexivity.
  - split; [exact Hv |]. vm_compute. done.
Defined.

(** X16.  The editor compares the text of its input with the value of the
    cell by [===].  A cell that holds a number is therefore changed by
    every edit, also one that leaves the input as it was: the number is
    replaced by a string and a change is sent or queued for the
    collaborators. *)
Theorem edit_turns_number_into_string
    (isEditable : column → bool) (s : Session) (position columnIndex : nat)
    (typed : string) (sendTime recordTime : Z)
    (rowIndex : Z) (shown l : loc) (cells : list string) (old : string)
    (col : column) (n : number) :
  tbody (table s) !! position = Some (TrRow rowIndex shown cells) →
  cells !! columnIndex = Some old →
  columns (options (table s)) !! columnIndex = Some col →
  rowAt (table s) rowIndex = Some l →
  isEditable col = true →
  getField (rowOf (table s) l) (field col) = VNum n →
  let s' := editCell isEditable position columnIndex typed sendTime recordTime s in
  let m := CellChanged rowIndex (field col) (VStr typed)
             (default localUser (collaborationUser (options (table s))))
             sendTime in
  getField (rowOf (table s') l) (field col) = VStr typed ∧
  ((socketSent s' = socketSent s ++ [m] ∧ pendingChanges s' = pendingChanges s) ∨
   (pendingChanges s' = pendingChanges s ++ [m] ∧ socketSent s' = socketSent s)).
Proof.
  intros Hrow Hcell Hcol Hat Hed Hnum s' m.
  destruct (editCell_effect isEditable position columnIndex typed sendTime
              recordTime s rowIndex shown l cells old col)
    as (Hstore & _ & Hm); try done.
  { by rewrite Hnum. }
  fold s' in Hstore, Hm. split; [| exact Hm].
  unfold rowOf at 1. rewrite Hstore, lookup_insert_eq. cbn.
  unfold getField. by rewrite lookup_insert_eq.
Qed.

(** The first cell of the shared table holds the number 1; committing the
    input as it stands, "1", stores the string and queues a change. *)
Lemma edit_turns_number_into_string_witness :
  let s := pollingSession sharedPaged in
  let s' := editCell (λ _, true) 0 0 "1" 1000 1001 s in
  getField (rowOf (table s) 0) "n" = VNum (Fin 1) ∧
  getField (rowOf (table s') 0) "n" = VStr "1" ∧
  length (pendingChanges s') = 1%nat.
Proof.
  intros s s'.
  destruct (edit_turns_number_into_string
              (λ _, true) s 0 0 "1" 1000 1001 0 0 0 ["1"] "1"
              {| field := "n"; title := "N"; render := None |} (Fin 1))
    as (Hv & _); try reflexivity.
  split_and!; [reflexivity | exact Hv | vm_compute; done].
Defined.

(** ** The queue of changes *)

(** X17.  A batch whose post fails goes back to the end of the queue: the
    changes queued while the post was under way now come before it.  No
    change is lost, but the next batch carries the newer changes ahead of
    the older ones. *)
Theorem failed_post_requeues_behind_newer (s : Session) (newer : list outbound) :
  pendingChanges s ≠ [] →
  bool_decide (collaborationMode s = "websocket") && socketOpen s = false →
  let batch := pendingChanges s in
  let s1 := sendPendingChanges s in
  let s2 := foldl (λ s m, dispatch m s) s1 newer in
  let s3 := onPostFailed batch s2 in
  posted s1 = posted s ++ [batch] ∧ pendingChanges s1 = [] ∧
  pendingChanges s3 = newer ++ batch ∧
  posted (sendPendingChanges s3) = posted s ++ [batch; newer ++ batch].
Proof.
  intros Hne Hmode batch s1 s2 s3.
  assert (s1 = set_posted (posted s ++ [batch]) (set_pendingChanges [] s)) as Hs1.
  { unfold s1, sendPendingChanges. rewrite bool_decide_false; [done |].
    intros Hlen. by apply length_zero_iff_nil in Hlen. }
  assert (∀ ms s0,
            bool_decide (collaborationMode s0 = "websocket") && socketOpen s0 = false →
            let s' := foldl (λ s m, dispatch m s) s0 ms in
            pendingChanges s' = pendingChanges s0 ++ ms ∧ posted s' = posted s0)
    as Hfold.
  { induction ms as [| m ms IH]; intros s0 Hq; cbn.
    - by rewrite app_nil_r.
    - destruct (IH (dispatch m s0)) as (-> & ->).
      + unfold dispatch. by rewrite Hq.
      + unfold dispatch. rewrite Hq. cbn. by rewrite <- app_assoc. }
  destruct (Hfold newer s1) as (Hp2 & Hposted2).
  { by rewrite Hs1. }
  fold s2 in Hp2, Hposted2.
  assert (pendingChanges s3 = newer ++ batch) as Hp3.
  { unfold s3, onPostFailed. cbn. rewrite Hp2, Hs1. done. }
  split_and!; [by rewrite Hs1 | by rewrite Hs1 | exact Hp3 |].
  unfold sendPendingChanges. rewrite Hp3.
  rewrite bool_decide_false.
  - cbn. rewrite Hposted2, Hs1. cbn. by rewrite <- app_assoc.
  - intros Hlen. apply length_zero_iff_nil in Hlen.
    apply app_eq_nil in Hlen as (_ & Hb). by apply Hne.
Qed.

Lemma failed_post_requeues_behind_newer_witness :
  let older := CellChanged 0 "n" (VStr "a") alice 1 in
  let newer := CellChanged 0 "n" (VStr "b") alice 2 in
  let s := dispatch older (pollingSession sharedPaged) in
  pendingChanges
    (onPostFailed [older] (dispatch newer (sendPendingChanges s)))
  = [newer; older].
Proof.
  intros older newer s.
  destruct (failed_post_requeues_behind_newer s [newer]) as (_ & _ & Hp & _);
    [done | done |].
  exact Hp.
Defined.

(** ** One history for each cell *)

Lemma no_colon_nil : ¬ occursIn ":" "".
Proof. intros (pre & post & Heq). by destruct pre. Qed.

Lemma no_colon_cons (a : ascii) (s : string) :
  a ≠ ":"%char → ¬ occursIn ":" s → ¬ occursIn ":" (String a s).
Proof.
  intros Ha Hs (pre & post & Heq). destruct pre as [| b pre].
  - change (String a s = String ":" post) in Heq.
    injection Heq as -> _. by apply Ha.
  - change (String a s = String b (pre +:+ ":" +:+ post)) in Heq.
    injection Heq as _ ->. apply Hs. by exists pre, post.
Qed.

Lemma no_colon_tail (a : ascii) (s : string) :
  ¬ occursIn ":" (String a s) → a ≠ ":"%char ∧ ¬ occursIn ":" s.
Proof.
  intros Hs. split.
  - intros ->. apply Hs. by exists "", s.
  - intros (pre & post & ->). apply Hs. by exists (String a pre), post.
Qed.

Lemma split_at_colon (s1 s2 f g : string) :
  ¬ occursIn ":" s1 → ¬ occursIn ":" s2 →
  s1 +:+ ":" +:+ f = s2 +:+ ":" +:+ g → s1 = s2 ∧ f = g.
Proof.
  revert s2. induction s1 as [| a s1 IH]; intros [| b s2] H1 H2 Heq.
  - change (String ":" f = String ":" g) in Heq. by injection Heq as ->.
  - change (String ":" f = String b (s2 +:+ ":" +:+ g)) in Heq.
    injection Heq as <- _. by destruct (no_colon_tail _ _ H2).
  - change (String a (s1 +:+ ":" +:+ f) = String ":" g) in Heq.
    injection Heq as -> _. by destruct (no_colon_tail _ _ H1).
  - change (String a (s1 +:+ ":" +:+ f) = String b (s2 +:+ ":" +:+ g)) in Heq.
    injection Heq as -> Heq.
    destruct (no_colon_tail _ _ H1) as (_ & H1').
    destruct (no_colon_tail _ _ H2) as (_ & H2').
    destruct (IH s2 H1' H2' Heq) as (-> & ->). done.
Qed.

Lemma no_colon_pretty_N_go (x : N) (s : string) :
  ¬ occursIn ":" s → ¬ occursIn ":" (pretty_N_go x s).
Proof.
  revert s. induction (N.lt_wf_0 x) as [x _ IH]; intros s Hs.
  destruct (decide (x = 0)%N) as [-> | Hx]; [by rewrite pretty_N_go_0 |].
  rewrite pretty_N_go_step by lia.
  apply IH; [apply N.div_lt; lia |].
  apply no_colon_cons; [| done].
  unfold pretty_N_char. by repeat case_match.
Qed.

Lemma no_colon_pretty_Z (z : Z) : ¬ occursIn ":" (pretty z).
Proof.
  assert (∀ p : positive, ¬ occursIn ":" (pretty p)) as Hpos.
  { intros p. unfold pretty, pretty_positive, pretty, pretty_N.
    case_decide; [done |]. apply no_colon_pretty_N_go, no_colon_nil. }
  destruct z as [| p | p]; unfold pretty, pretty_Z.
  - apply no_colon_cons; [done | apply no_colon_nil].
  - apply Hpos.
  - apply no_colon_cons; [done | apply Hpos].
Qed.

Lemma cellKey_inj (i j : Z) (f g : string) :
  cellKey i f = cellKey j g → i = j ∧ f = g.
Proof.
  unfold cellKey. intros Heq.
  destruct (split_at_colon _ _ _ _ (no_colon_pretty_Z i) (no_colon_pretty_Z j) Heq)
    as (Hz & Hf).
  split; [| done]. by apply (inj pretty).
Qed.

Lemma addToVersionHistory_stored (rowIndex : Z) (f : string) (v : value)
    (u : option user) (now : Z) (t : Tabelin) :
  versionHistory (options t) = true → historyWf t →
  let t' := addToVersionHistory rowIndex f v u now t in
  historyWf t' ∧
  (∀ key,
     historyAt key t'
     = if bool_decide (cellKey rowIndex f = key) then
         bounded (maxVersions (options t))
           (historyAt key t
            ++ [{| v_value := v; v_timestamp := now;
                   v_user := default unknownUser u |}])
       else historyAt key t).
Proof.
  intros Hv Hwf.
  exact (addToVersionHistory_history
           {| e_row := rowIndex; e_field := f; e_value := v; e_user := u;
              e_time := now |} t Hv Hwf).
Qed.

(** X18.  The key of a cell's history tells the cell: two cells share a
    key only if they are the same row index and the same field, also when
    a field name holds a colon.  Recording a version for one cell therefore
    leaves the history of every other cell as it was. *)
Theorem histories_are_per_cell (i j : Z) (f g : string) (v : value)
    (u : option user) (now : Z) (t : Tabelin) :
  (cellKey i f = cellKey j g → i = j ∧ f = g) ∧
  (historyWf t → i ≠ j ∨ f ≠ g →
   storedHistory j g (addToVersionHistory i f v u now t) = storedHistory j g t).
Proof.
  split; [apply cellKey_inj |].
  intros Hwf Hne.
  destruct (versionHistory (options t)) eqn:Hv.
  - destruct (addToVersionHistory_stored i f v u now t Hv Hwf) as (_ & Hat).
    unfold storedHistory. rewrite Hat. rewrite bool_decide_false; [done |].
    intros (-> & ->)%cellKey_inj. by destruct Hne.
  - by rewrite addToVersionHistory_off.
Qed.

Lemma histories_are_per_cell_witness :
  let t := recordEdit (sharedTable 10) (editAt 1 "w" 1) in
  storedHistory 1 "n" (addToVersionHistory 11 "n" (VStr "x") None 2 t)
  = [entryOf (editAt 1 "w" 1)].
Proof.
  intros t.
  destruct (histories_are_per_cell 11 1 "n" "n" (VStr "x") None 2 t)
    as (_ & Hkeep).
  rewrite Hkeep; [vm_compute; done | | left; done].
  apply addToVersionHistory_history; [done |]. by apply historyWf_fresh.
Defined.

(** ** A full history after it has been shown *)

Lemma showVersionHistory_wf `{Host} (rowIndex : Z) (columnField : string)
    (t : Tabelin) :
  historyWf t →
  historyWf (showVersionHistory rowIndex columnField t) ∧
  options (showVersionHistory rowIndex columnField t) = options t.
Proof.
  intros [Hlt Hinj].
  unfold showVersionHistory, getCellVersionHistory, historyWf.
  destruct (cellVersions t !! cellKey rowIndex columnField) as [ref |] eqn:Hk;
    case_bool_decide; cbn; rewrite ?length_insert, ?length_app; cbn;
    (split; [split; [| done] | done]);
    intros key ref' Href%Hlt; lia.
Qed.

(** X19.  The length check of [addToVersionHistory] drops the first entry
    of the stored array, which is the oldest version only as long as the
    array is in the order of recording.  Once [showVersionHistory] has
    sorted a full history, newest first, the next version recorded drops
    the newest of the earlier versions and keeps the oldest. *)
Theorem show_then_record_drops_newest `{Host} (rowIndex : Z)
    (columnField : string) (v : value) (u : option user) (now : Z)
    (t : Tabelin) :
  stableHost H → historyWf t → versionHistory (options t) = true →
  let h := storedHistory rowIndex columnField t in
  let e := {| v_value := v; v_timestamp := now;
              v_user := default unknownUser u |} in
  increasing h → h ≠ [] → length h = maxVersions (options t) →
  storedHistory rowIndex columnField
    (addToVersionHistory rowIndex columnField v u now t)
  = tail h ++ [e] ∧
  storedHistory rowIndex columnField
    (addToVersionHistory rowIndex columnField v u now
       (showVersionHistory rowIndex columnField t))
  = reverse (removelast h) ++ [e].
Proof.
  intros Hst Hwf Hv h e Hinc Hne Hlen.
  assert (∀ l : list version, l ≠ [] → length l = maxVersions (options t) →
            bounded (maxVersions (options t)) (l ++ [e]) = tail l ++ [e])
    as Hfull.
  { intros l Hl Hll. unfold bounded, len. rewrite length_app, Hll. cbn.
    destruct (Z.gtb_spec (Z.of_nat (maxVersions (options t) + 1))
                (Z.of_nat (maxVersions (options t)))) as [_ | Hle]; [| lia].
    by destruct l. }
  split.
  - destruct (addToVersionHistory_stored rowIndex columnField v u now t Hv Hwf)
      as (_ & Hat).
    unfold storedHistory. rewrite Hat, bool_decide_true by done.
    by apply Hfull.
  - destruct (showVersionHistory_wf rowIndex columnField t Hwf) as (Hwf' & Ho).
    destruct (addToVersionHistory_stored rowIndex columnField v u now
                (showVersionHistory rowIndex columnField t))
      as (_ & Hat); [by rewrite Ho | done |].
    unfold storedHistory at 1. rewrite Hat, bool_decide_true by done.
    fold (storedHistory rowIndex columnField
            (showVersionHistory rowIndex columnField t)).
    rewrite (showVersionHistory_stored rowIndex columnField t Hst Hwf Hne).
    fold h. rewrite (stableSort_increasing h Hinc), Ho.
    rewrite Hfull.
    + f_equal. destruct (exists_last Hne) as (h' & x & Hh'). rewrite Hh'.
      by rewrite reverse_snoc, removelast_last.
    + intros Hr%(f_equal length). rewrite length_reverse in Hr.
      by apply Hne, length_zero_iff_nil.
    + by rewrite length_reverse.
Qed.

(** With room for two versions and "v1", "v2" recorded: a third version
    "v3" leaves "v2", "v3"; after the history has been shown it leaves
    "v1", "v3". *)
Lemma show_then_record_drops_newest_witness :
  let t := foldl recordEdit (sharedTable 2) [editAt 0 "v1" 1; editAt 0 "v2" 2] in
  storedHistory 0 "n" (addToVersionHistory 0 "n" (VStr "v3") (Some alice) 3 t)
  = [entryOf (editAt 0 "v2" 2); entryOf (editAt 0 "v3" 3)] ∧
  storedHistory 0 "n"
    (addToVersionHistory 0 "n" (VStr "v3") (Some alice) 3
       (showVersionHistory (H := numericHost) 0 "n" t))
  = [entryOf (editAt 0 "v1" 1); entryOf (editAt 0 "v3" 3)].
Proof.
  intros t.
  destruct (show_then_record_drops_newest (H := numericHost)
              0 "n" (VStr "v3") (Some alice) 3 t) as (Hplain & Hshown).
  - apply stableHost_numericHost.
  - apply (recordEdits_history [editAt 0 "v1" 1; editAt 0 "v2" 2]
             (sharedTable 2) ""); [done | by apply historyWf_fresh | done].
  - done.
  - vm_compute. repeat constructor.
  - vm_compute. done.
  - vm_compute. done.
  - split; [rewrite Hplain | rewrite Hshown]; vm_compute; done.
Defined.

(** ** Restoring a version *)

(** X20.  Restoring a version does not wind the history back: for a cell
    of a known column the restored value is written to the row and recorded
    as one more version, under the name of the user with " (restored)"
    added; the versions recorded before stay, up to the length check, and
    the histories of other cells are as they were. *)
Theorem restore_is_recorded_as_new_version (rowIndex : Z) (columnField : string)
    (v : value) (sendTime recordTime : Z) (s : Session) (l : loc)
    (columnIndex : nat) :
  historyWf (table s) → versionHistory (options (table s)) = true →
  rowAt (table s) rowIndex = Some l →
  findColumn columnField (columns (options (table s))) = Some columnIndex →
  let s' := restoreVersion rowIndex columnField v sendTime recordTime s in
  getField (rowOf (table s') l) columnField = v ∧
  storedHistory rowIndex columnField (table s')
  = bounded (maxVersions (options (table s)))
      (storedHistory rowIndex columnField (table s)
       ++ [{| v_value := v; v_timestamp := recordTime;
              v_user := restorer (table s) |}]) ∧
  (∀ j g, rowIndex ≠ j ∨ columnField ≠ g →
          storedHistory j g (table s') = storedHistory j g (table s)).
Proof.
  intros Hwf Hv Hat Hcol s'.
  unfold s', restoreVersion. rewrite Hat. cbn. rewrite Hcol.
  set (r := <[columnField := v]> (rowOf (table s) l)).
  set (t2 := set_tbody _ _).
  unfold sendCellChange.
  match goal with
  | |- context [dispatch ?m (set_table t2 s)] =>
      destruct (dispatch_table m (set_table t2 s)) as (Ht & _); rewrite !Ht
  end.
  cbn [table set_table].
  assert (historyWf t2) as Hwf2 by exact Hwf.
  assert (options t2 = options (table s)) as Ho2 by done.
  assert (∀ key, historyAt key t2 = historyAt key (table s)) as Hh2 by done.
  assert (restorer t2 = restorer (table s)) as Hr2 by done.
  destruct (addToVersionHistory_stored rowIndex columnField v
              (Some (restorer t2)) recordTime t2) as (_ & Hstored);
    [by rewrite Ho2 | done |].
  destruct (addToVersionHistory_frame rowIndex columnField v
              (Some (restorer t2)) recordTime t2) as (_ & Hstore & _).
  split_and!.
  - unfold rowOf. rewrite Hstore. cbn. rewrite lookup_insert_eq. cbn.
    unfold getField, r. by rewrite lookup_insert_eq.
  - unfold storedHistory. rewrite Hstored, bool_decide_true by done.
    by rewrite Ho2, Hh2, Hr2.
  - intros j g Hne. unfold storedHistory. rewrite Hstored.
    rewrite bool_decide_false; [apply Hh2 |].
    intros (-> & ->)%cellKey_inj. by destruct Hne.
Qed.

(** With "v1", "v2" and "v3" recorded for a cell, restoring "v1" leaves
    four versions, the last one by "Alice (restored)". *)
Lemma restore_is_recorded_as_new_version_witness :
  let t := foldl recordEdit (sharedTable 10)
                 [editAt 0 "v1" 1; editAt 0 "v2" 2; editAt 0 "v3" 3] in
  let s' := restoreVersion 0 "n" (VStr "v1") 4 5 (pollingSession t) in
  v_value <$> storedHistory 0 "n" (table s')
  = [VStr "v1"; VStr "v2"; VStr "v3"; VStr "v1"] ∧
  (v_user <$> last (storedHistory 0 "n" (table s'))) ≫= (λ u, Some (user_name u))
  = Some (VStr "Alice (restored)").
Proof.
  intros t s'.
  destruct (restore_is_recorded_as_new_version 0 "n" (VStr "v1") 4 5
              (pollingSession t) 0 0) as (_ & Hh & _).
  - apply (recordEdits_history
             [editAt 0 "v1" 1; editAt 0 "v2" 2; editAt 0 "v3" 3]
             (sharedTable 10) ""); [done | by apply historyWf_fresh | done].
  - done.
  - done.
  - done.
  - fold s' in Hh. rewrite Hh. split; vm_compute; reflexivity.
Defined.

(** A restore for a field that is no column still writes the value to the
    row, and then stops: nothing is sent and nothing recorded. *)
Lemma restore_of_unknown_column :
  let s := pollingSession (sharedTable 10) in
  let s' := restoreVersion 0 "zip" (VStr "x") 4 5 s in
  getField (rowOf (table s') 0) "zip" = VStr "x" ∧
  pendingChanges s' = [] ∧ storedHistory 0 "zip" (table s') = [].
Proof. vm_compute. done. Qed.

(** ** Operators of the rules engine that come in pairs *)

(** X21.  Each negated operator of the rules engine is the negation of its
    positive partner, for every value and operand, with one exception:
    [in] and [not_in] are complements only when the operand is an array,
    and are both false otherwise. *)
Theorem negated_operators_are_complements `{Host} (w : operand) (r : row)
    (col : option column) (v : value) :
  let ev op := evaluateCondition (cond op w) r col v in
  complements (ev "==") (ev "!=") ∧
  complements (ev "=") (ev "<>") ∧
  complements (ev "===") (ev "!==") ∧
  complements (ev "contains") (ev "not_contains") ∧
  complements (ev "is_null") (ev "is_not_null") ∧
  complements (ev "is_empty") (ev "is_not_empty") ∧
  match w with
  | OArray _ => complements (ev "in") (ev "not_in")
  | _ => ev "in" = VBool false ∧ ev "not_in" = VBool false
  end.
Proof.
  intros ev. unfold ev, complements. cbn.
  split_and!; try (eexists; split; reflexivity).
  - eexists. split; [reflexivity |]. by rewrite negb_orb.
  - eexists. split; [reflexivity |]. by rewrite !negb_orb.
  - destruct w; [done | | done]. eexists. split; reflexivity.
Qed.

(** ** Export *)

Lemma exportRow_snoc (cols : list column) (c : column) (r : row) :
  exportRow (cols ++ [c]) r
  = <[exportKey c := getField r (field c)]> (exportRow cols r).
Proof. unfold exportRow. by rewrite foldl_app. Qed.

(** X22.  An exported row has one entry for each distinct key among the
    columns, the key of a column being its title or, failing that, its
    field; the entry holds the value of the last column with that key.
    Columns that share a title thus lose all values but the last. *)
Theorem exported_row_keeps_last_column_per_key (cols : list column) (r : row)
    (k : string) :
  exportRow cols r !! k
  = (λ c, getField r (field c))
      <$> last (List.filter (λ c, bool_decide (exportKey c = k)) cols).
Proof.
  induction cols as [| c cols IH] using rev_ind; [done |].
  rewrite exportRow_snoc, List.filter_app. cbn.
  case_bool_decide as Hk.
  - subst k. rewrite lookup_insert_eq, last_snoc. done.
  - rewrite lookup_insert_ne by done. by rewrite app_nil_r.
Qed.

Lemma export_of_columns_with_one_title :
  exportRow sameTitleColumns
    {[ "first" := VStr "Ada"; "last" := VStr "Lovelace" ]}
  = {[ "Name" := VStr "Lovelace" ]}.
Proof. vm_compute. done. Qed.

(** X23.  What an export of a client-side table covers depends on how the
    table loads its rows.  A table that loads in batches exports the
    original data, so a search does not narrow its export; a paged table
    exports the working data, so after a search it exports the rows the
    search has left. *)
Theorem export_follows_search_only_when_paged (query : string) (t : Tabelin) :
  serverSide (options t) = false →
  let batched := infiniteScroll (options t) || lazyLoad (options t) in
  let t' := search query t in
  (batched = true → getExportData t' = getExportData t) ∧
  (batched = false →
   getExportData t'
   = (λ l, exportRow (columns (options t)) (rowOf t l)) <$> data (options t')).
Proof.
  intros Hs batched t'. unfold batched.
  destruct (search_frame query t) as (Hod & Hrs & Hcols). fold t' in Hod, Hrs, Hcols.
  assert (options t' = options (set_data (data (options t')) t)) as Ho.
  { unfold t', search.
    destruct (bool_decide (query = "") || bool_decide (trim query = ""));
      cbn; destruct (_ || _);
      match goal with
      | |- context [loadData ?u] => destruct (loadData_frame u) as (-> & _)
      end; done. }
  assert (rowOf t' = rowOf t) as Hrow by (unfold rowOf; by rewrite Hrs).
  unfold getExportData. rewrite Ho. cbn. rewrite Hs, Hod, Hrow.
  split; intros ->; done.
Qed.

Lemma export_follows_search_only_when_paged_witness :
  length (getExportData (search "2" lazyTable)) = 25%nat ∧
  length (getExportData (search "25" table25)) = 1%nat.
Proof.
  destruct (export_follows_search_only_when_paged "2" lazyTable eq_refl)
    as (Hlazy & _).
  destruct (export_follows_search_only_when_paged "25" table25 eq_refl)
    as (_ & Hpaged).
  split.
  - rewrite (Hlazy eq_refl). vm_compute. done.
  - rewrite (Hpaged eq_refl). vm_compute. done.
Defined.

(** ** Reloading a server-side table that loads in batches *)




(** ** Refining a search *)














(** ** Changes made while the socket is down *)

Lemma editCell_queue (isEditable : column → bool) (position columnIndex : nat)
    (typed : string) (sendTime recordTime : Z) (s : Session) :
  let s' := editCell isEditable position columnIndex typed sendTime recordTime s in
  posted s' = posted s ∧ collaborationMode s' = collaborationMode s ∧
  pendingChanges s `prefix_of` pendingChanges s'.
Proof.
  unfold editCell, sendCellChange, dispatch.
  repeat case_match; cbn; split_and!; try done;
    by apply prefix_app_r.
Qed.

Lemma restoreVersion_queue (rowIndex : Z) (columnField : string) (v : value)
    (sendTime recordTime : Z) (s : Session) :
  let s' := restoreVersion rowIndex columnField v sendTime recordTime s in
  posted s' = posted s ∧ collaborationMode s' = collaborationMode s ∧
  pendingChanges s `prefix_of` pendingChanges s'.
Proof.
  unfold restoreVersion, sendCellChange, dispatch.
  repeat case_match; cbn; split_and!; try done;
    by apply prefix_app_r.
Qed.

Lemma websocketEvent_queue (s s' : Session) :
  websocketEvent s s' →
  posted s' = posted s ∧ collaborationMode s' = collaborationMode s ∧
  pendingChanges s `prefix_of` pendingChanges s'.
Proof.
  destruct 1; try (by split_and!).
  - apply editCell_queue.
  - apply restoreVersion_queue.
  - unfold sendCursorPosition. repeat case_match; cbn; split_and!; try done.
    by apply prefix_app_r.
Qed.

Lemma websocketEvents_queue (s s' : Session) :
  rtc websocketEvent s s' →
  posted s' = posted s ∧ pendingChanges s `prefix_of` pendingChanges s'.
Proof.
  induction 1 as [| x y z Hstep _ IH]; [done |].
  destruct (websocketEvent_queue _ _ Hstep) as (Hpy & _ & Hqy).
  destruct IH as (-> & IH). split; [done |]. by etrans.
Qed.

(** X26.  In [websocket] mode a change made while the socket is not open
    is put on the queue of pending changes, and there it stays: whatever
    happens afterwards, the socket opening included, the change is still
    queued and nothing has been posted. *)
Theorem change_queued_on_websocket_stays_queued (m : outbound) (s s' : Session) :
  collaborationMode s = "websocket" → socketOpen s = false →
  rtc websocketEvent (dispatch m s) s' →
  m ∈ pendingChanges s' ∧ posted s' = posted s ∧
  pendingChanges s ++ [m] `prefix_of` pendingChanges s'.
Proof.
  intros Hmode Hclosed Hrun.
  assert (pendingChanges (dispatch m s) = pendingChanges s ++ [m] ∧
          posted (dispatch m s) = posted s) as (Hq & Hp).
  { unfold dispatch. rewrite Hclosed, andb_false_r. done. }
  destruct (websocketEvents_queue _ _ Hrun) as (Hp' & Hq').
  rewrite Hq in Hq'. split_and!; [| by rewrite Hp', Hp | done].
  destruct Hq' as [rest ->]. set_solver.
Qed.

Lemma change_queued_on_websocket_stays_queued_witness :
  let m := CellChanged 0 "n" (VStr "x") alice 1 in
  let s := socketSession sharedPaged in
  let s' := sendCellChange 1 "n" (VStr "y") 2 (onSocketOpen (dispatch m s)) in
  pendingChanges s' = [m] ∧ posted s' = [] ∧ length (socketSent s') = 2%nat.
Proof.
  intros m s s'.
  destruct (change_queued_on_websocket_stays_queued m s (onSocketOpen (dispatch m s)))
    as (_ & Hp & _); [done | done | |].
  - apply rtc_once. by constructor.
  - vm_compute. done.
Defined.

(** ** The cache of the rules engine *)

(** X27.  The cache of [evaluateRule] is keyed by the rule and the value of
    its field, as JSON.  Once a rule has been evaluated on a row, a row
    whose field has the same JSON text gets the cached result, whatever
    the row holds; and since [null], [NaN] and the infinities all have the
    text [null], a rule evaluated for one of them answers for the others. *)
Theorem rule_cache_answers_for_other_rows `{Host} `{Json} (cols : list column)
    (ru : rule) (r1 r2 : row) (ruleEvaluations : gmap string value) :
  let v1 := getField r1 (rule_field ru) in
  let v2 := getField r2 (rule_field ru) in
  stringify v1 = stringify v2 →
  ruleEvaluations !! cacheKey ru v1 = None →
  let first := evaluateRuleCached cols ru r1 ruleEvaluations in
  first.1 = evaluateRule cols ru r1 ∧
  evaluateRuleCached cols ru r2 first.2 = first ∧
  stringify (VNum NaN) = stringify VNull ∧
  stringify (VNum PosInf) = stringify VNull ∧
  stringify (VNum NegInf) = stringify VNull.
Proof.
  intros v1 v2 Hjson Hfresh first.
  unfold first, evaluateRuleCached. fold v1 v2. rewrite Hfresh. cbn.
  split_and!; try done.
  unfold cacheKey. rewrite <- Hjson. by rewrite lookup_insert_eq.
Qed.

(** The rule that [age] is missing, evaluated for a row without an age and
    then for a row whose age is [NaN]: the second answer is the first one,
    where the condition itself says no. *)
Lemma rule_cache_answers_for_other_rows_witness :
  let r1 : row := {[ "age" := VNull ]} in
  let r2 : row := {[ "age" := VNum NaN ]} in
  let first :=
    evaluateRuleCached (H := numericHost) (H0 := plainJson) [] ageIsNull r1 ∅ in
  evaluateRuleCached (H := numericHost) (H0 := plainJson) [] ageIsNull r2 first.2
  = (VBool true, first.2) ∧
  evaluateRule (H := numericHost) [] ageIsNull r2 = VBool false.
Proof.
  intros r1 r2 first.
  destruct (rule_cache_answers_for_other_rows (H := numericHost) (H0 := plainJson)
              [] ageIsNull r1 r2 ∅ eq_refl (lookup_empty _))
    as (_ & Hhit & _).
  split; [| reflexivity]. exact Hhit.
Defined.

(** ** Showing a history *)

(** X28.  Showing the history of a cell leaves the stored history of
    every other cell as it was; and for a cell without history it raises
    an alert, opens no dialog and stores nothing. *)
Theorem showing_a_history_leaves_other_cells `{Host} (i j : Z) (f g : string)
    (t : Tabelin) :
  historyWf t →
  let t' := showVersionHistory i f t in
  (i ≠ j ∨ f ≠ g → storedHistory j g t' = storedHistory j g t) ∧
  (storedHistory i f t = [] →
   storedHistory i f t' = [] ∧ dialogs t' = dialogs t ∧
   alerts t' = alerts t ++ ["No version history available for this cell."]).
Proof.
  intros [Hlt Hinj] t'. split.
  - intros Hne.
    assert (cellKey i f ≠ cellKey j g) as Hkey.
    { intros (-> & ->)%cellKey_inj. by destruct Hne. }
    unfold t', storedHistory, historyAt, showVersionHistory, getCellVersionHistory.
    destruct (cellVersions t !! cellKey i f) as [ref |] eqn:Hk;
      case_bool_decide as Hlen; cbn;
      destruct (cellVersions t !! cellKey j g) as [ref' |] eqn:Hk'; try done.
    + rewrite list_lookup_insert_ne; [done |].
      intros ->. apply Hkey. by eapply Hinj.
    + pose proof (Hlt _ _ Hk'). by rewrite lookup_app_l by lia.
    + exfalso. apply Hlen. cbn. rewrite lookup_app_r by lia.
      by rewrite Nat.sub_diag.
  - unfold t', storedHistory, historyAt, showVersionHistory, getCellVersionHistory.
    destruct (cellVersions t !! cellKey i f) as [ref |] eqn:Hk.
    + intros Hempty. rewrite Hempty. cbn.
      rewrite bool_decide_true by done. cbn. by rewrite Hk, Hempty.
    + intros _. cbn. rewrite lookup_app_r, Nat.sub_diag by lia. cbn.
      rewrite bool_decide_true by done. cbn. by rewrite Hk.
Qed.

Lemma showing_a_history_leaves_other_cells_witness :
  let t := foldl recordEdit (sharedTable 10) threeVersions in
  let t' := showVersionHistory (H := numericHost) 0 "n" t in
  storedHistory 1 "n" t' = [entryOf (editAt 1 "w" 2)] ∧
  alerts (showVersionHistory (H := numericHost) 2 "n" t)
  = ["No version history available for this cell."].
Proof.
  intros t t'.
  assert (historyWf t) as Hwf.
  { apply (recordEdits_history threeVersions (sharedTable 10) "");
      [done | by apply historyWf_fresh | done]. }
  destruct (showing_a_history_leaves_other_cells (H := numericHost)
              0 1 "n" "n" t Hwf) as (Hother & _).
  destruct (showing_a_history_leaves_other_cells (H := numericHost)
              2 2 "n" "n" t Hwf) as (_ & Hnone).
  split.
  - fold t' in Hother. rewrite Hother by (left; done). vm_compute. done.
  - destruct Hnone as (_ & _ & ->); vm_compute; done.
Defined.

(** ** A load that fails *)

(** X29.  When the query of a server-side load fails, the table is ready
    again: the load is over, the body holds the error message and no rows,
    the page counters are as the failed load left them, and the next load
    sends a new query. *)
Theorem failed_load_releases_table (message : string) (t : Tabelin) :
  serverSide (options t) = true →
  let t' := onServerError message t in
  isBusy t' = false ∧ loading t' = false ∧
  tbody t' = [TrNote "error-message" ("Error loading data: " +:+ message)] ∧
  renderedRows t' = [] ∧
  currentPage t' = currentPage t ∧ totalPages t' = totalPages t ∧
  fetches (loadData t') = fetches t ++ [buildServerParams t].
Proof.
  intros Hs t'. split_and!; try done.
  unfold t'. rewrite loadData_server by done. done.
Qed.

(** The first query of the server-side table fails; a step to the next
    page is then refused, there being one page, and a refresh sends the
    second query. *)
Lemma failed_load_releases_table_witness :
  let t' := onServerError "HTTP Error: 500" serverTable in
  isBusy t' = false ∧ length (fetches (loadData t')) = 2%nat.
Proof.
  intros t'.
  destruct (failed_load_releases_table "HTTP Error: 500" serverTable eq_refl)
    as (Hb & _ & _ & _ & _ & _ & Hf).
  split; [exact Hb |]. fold t' in Hf. rewrite Hf. reflexivity.
Defined.
